(** * exifRenamer: timestamp resolution and collision-free renaming

    A shallow embedding of [exifRenamer.py] and the properties of its
    timestamp resolver ([creation_time], [exif_creation_time],
    [exif_time_else_creation_time]) and of its planner
    ([renamed_file_name], [calculate_renamings]).

    Conventions of the embedding:
    - a Python [str] is a [string], the list of its characters, each a
      code point below 256; [str.lower], which follows the Unicode case
      mapping, is taken as an interface ([PyStr]);
    - a naive [datetime] is the number of microseconds elapsed since
      0001-01-01 00:00:00, an integer between [0] and [datetime_max];
    - a [dict] is an association list in insertion order, as Python keeps it;
    - a raised exception is the [Raise] case of [result]. *)

From Stdlib Require Import ZArith Bool Ascii String List Lia.
From Stdlib Require Import Permutation Sorted.
From Equations Require Import Equations.
Import ListNotations.

Local Open Scope Z_scope.
Local Open Scope list_scope.

(** ** Exceptions *)

Inductive exception : Type :=
| OSError
| ValueError
| OverflowError.

Inductive result (A : Type) : Type :=
| Ok (a : A)
| Raise (e : exception).

Arguments Ok {A} a.
Arguments Raise {A} e.

Definition bind {A B : Type} (c : result A) (k : A -> result B) : result B :=
  match c with
  | Ok a => k a
  | Raise e => Raise e
  end.

Notation "x <- c ;; k" := (bind c (fun x => k))
  (at level 61, c at next level, right associativity).

(** ** datetime and timedelta *)

Module Datetime.

(** Microseconds since 0001-01-01 00:00:00. *)
Abbreviation datetime := Z (only parsing).

(** A duration in microseconds. *)
Abbreviation timedelta := Z (only parsing).

Definition timedelta_seconds (n : Z) : timedelta := n * 1000000.

Definition us_per_day : Z := 86400 * 1000000.

(** [date.max.toordinal()], the ordinal of 9999-12-31. *)
Definition MAXORDINAL : Z := 3652059.

(** [datetime.max], 9999-12-31 23:59:59.999999. *)
Definition datetime_max : datetime := MAXORDINAL * us_per_day - 1.

Definition valid (t : datetime) : Prop := 0 <= t <= datetime_max.

(** [t + d]: Python raises [OverflowError] when the day of the sum leaves
    the range of ordinals [1 .. MAXORDINAL]. *)
Definition add (t : datetime) (d : timedelta) : result datetime :=
  let s := t + d in
  if (0 <=? s) && (s <=? datetime_max) then Ok s else Raise OverflowError.

(** *** The proleptic Gregorian calendar, after [datetime.py] *)

Definition is_leap (year : Z) : bool :=
  (year mod 4 =? 0) && (negb (year mod 100 =? 0) || (year mod 400 =? 0)).

Definition days_before_year (year : Z) : Z :=
  let y := year - 1 in
  y * 365 + y / 4 - y / 100 + y / 400.

(** [_DAYS_IN_MONTH] and [_DAYS_BEFORE_MONTH], for a year that is not
    leap. *)
Definition DAYS_IN_MONTH (month : Z) : Z :=
  if month =? 2 then 28
  else if (month =? 4) || (month =? 6) || (month =? 9) || (month =? 11)
       then 30 else 31.

Fixpoint DAYS_BEFORE_MONTH_aux (months : nat) : Z :=
  match months with
  | O => 0
  | S k => DAYS_BEFORE_MONTH_aux k + DAYS_IN_MONTH (Z.of_nat (S k))
  end.

Definition DAYS_BEFORE_MONTH (month : Z) : Z :=
  DAYS_BEFORE_MONTH_aux (Z.to_nat (month - 1)).

Definition b2z (b : bool) : Z := if b then 1 else 0.

Definition days_in_month (year month : Z) : Z :=
  if (month =? 2) && is_leap year then 29 else DAYS_IN_MONTH month.

Definition days_before_month (year month : Z) : Z :=
  DAYS_BEFORE_MONTH month + b2z ((2 <? month) && is_leap year).

Definition ymd2ord (year month day : Z) : Z :=
  days_before_year year + days_before_month year month + day.

(** [_ord2ymd]: ordinal (0001-01-01 is day 1) to (year, month, day). *)
Definition ord2ymd (ordinal : Z) : Z * Z * Z :=
  let n := ordinal - 1 in
  let n400 := n / 146097 in
  let n := n mod 146097 in
  let year := n400 * 400 + 1 in
  let n100 := n / 36524 in
  let n := n mod 36524 in
  let n4 := n / 1461 in
  let n := n mod 1461 in
  let n1 := n / 365 in
  let n := n mod 365 in
  let year := year + n100 * 100 + n4 * 4 + n1 in
  if (n1 =? 4) || (n100 =? 4) then (year - 1, 12, 31)
  else
    let leapyear := (n1 =? 3) && (negb (n4 =? 24) || (n100 =? 3)) in
    let month := Z.shiftr (n + 50) 5 in
    let preceding := DAYS_BEFORE_MONTH month + b2z ((2 <? month) && leapyear) in
    if n <? preceding then
      let month := month - 1 in
      let preceding :=
        preceding - (DAYS_IN_MONTH month + b2z ((month =? 2) && leapyear)) in
      (year, month, n - preceding + 1)
    else (year, month, n - preceding + 1).

(** The constructor [datetime(year, month, day, hour, minute, second,
    microsecond)]. *)
Definition make (year month day hour minute second microsecond : Z)
  : datetime :=
  (((ymd2ord year month day - 1) * 24 + hour) * 60 + minute) * 60000000
  + second * 1000000 + microsecond.

Definition ordinal_of (t : datetime) : Z := t / us_per_day + 1.
Definition hour_of (t : datetime) : Z := (t mod us_per_day) / 3600000000.
Definition minute_of (t : datetime) : Z := (t / 60000000) mod 60.
Definition second_of (t : datetime) : Z := (t / 1000000) mod 60.
Definition microsecond_of (t : datetime) : Z := t mod 1000000.

(** *** Formatting *)

Definition digit (d : Z) : ascii := ascii_of_nat (48 + Z.to_nat (d mod 10)).

Definition digits2 (n : Z) : string :=
  String (digit (n / 10)) (String (digit n) EmptyString).

Definition digits4 (n : Z) : string :=
  String (digit (n / 1000)) (String (digit (n / 100)) (digits2 n)).

(** [t.strftime('%Y-%m-%d %H:%M:%S')], the year in four digits as the
    library documents it.  (The C library of some hosts writes a year
    below 1000 without its leading zeros.) *)
Definition strftime (t : datetime) : string :=
  let '(y, m, d) := ord2ymd (ordinal_of t) in
  (digits4 y ++ "-" ++ digits2 m ++ "-" ++ digits2 d ++ " "
   ++ digits2 (hour_of t) ++ ":" ++ digits2 (minute_of t) ++ ":"
   ++ digits2 (second_of t))%string.

End Datetime.

Import Datetime.

(** ** dict: association lists in insertion order *)

Section Dict.

Context {K V : Type}.
Variable eqb : K -> K -> bool.

Definition dict : Type := list (K * V).

(** [k in d] *)
Definition dict_contains (k : K) (d : dict) : bool :=
  existsb (fun p => eqb k (fst p)) d.

(** [d.get(k)] *)
Fixpoint dict_get (k : K) (d : dict) : option V :=
  match d with
  | [] => None
  | (k', v) :: d' => if eqb k k' then Some v else dict_get k d'
  end.

(** [d[k] = v]: a key already present keeps its place, a new key goes
    last. *)
Fixpoint dict_set (k : K) (v : V) (d : dict) : dict :=
  match d with
  | [] => [(k, v)]
  | (k', v') :: d' =>
      if eqb k k' then (k', v) :: d' else (k', v') :: dict_set k v d'
  end.

Definition dict_keys (d : dict) : list K := map fst d.

(** The keys of a dict are pairwise distinct. *)
Definition is_dict (d : dict) : Prop := NoDup (dict_keys d).

End Dict.

Arguments dict : clear implicits.

(** ** Strings and paths *)

Module Str.

Definition chars : string -> list ascii := list_ascii_of_string.
Definition of_chars : list ascii -> string := string_of_list_ascii.

Definition nonempty (s : string) : bool :=
  match s with EmptyString => false | String _ _ => true end.

Definition lower_char (c : ascii) : ascii :=
  let n := nat_of_ascii c in
  if (Nat.leb 65 n && Nat.leb n 90)%bool then ascii_of_nat (n + 32) else c.

(** The case folding of the letters [A] to [Z]: what [s.lower()] is on a
    text of ASCII characters. *)
Fixpoint lower (s : string) : string :=
  match s with
  | EmptyString => EmptyString
  | String c s' => String (lower_char c) (lower s')
  end.

Definition upper_char (c : ascii) : ascii :=
  let n := nat_of_ascii c in
  if (Nat.leb 97 n && Nat.leb n 122)%bool then ascii_of_nat (n - 32) else c.

(** [s.find(c)] and [s.find(c, start)] for a character [c]; [None] is
    Python's [-1]. *)
Fixpoint index (c : ascii) (l : list ascii) : option nat :=
  match l with
  | [] => None
  | x :: l' => if Ascii.eqb x c then Some O else option_map S (index c l')
  end.

Fixpoint find (c : ascii) (l : list ascii) (start : nat) : option nat :=
  match start, l with
  | O, _ => index c l
  | S _, [] => None
  | S n, _ :: l' => option_map S (find c l' n)
  end.

(** [s.startswith(p)] *)
Definition startswith (s p : string) : bool := String.prefix p s.

(** [s.endswith(p)] *)
Definition endswith (s p : string) : bool :=
  String.prefix (of_chars (rev (chars p))) (of_chars (rev (chars s))).

Fixpoint takewhile {A} (f : A -> bool) (l : list A) : list A :=
  match l with
  | [] => []
  | x :: l' => if f x then x :: takewhile f l' else []
  end.

Fixpoint dropwhile {A} (f : A -> bool) (l : list A) : list A :=
  match l with
  | [] => []
  | x :: l' => if f x then dropwhile f l' else l
  end.

End Str.

(** [str.lower] follows the Unicode case mapping of the interpreter, so
    the development takes it as an interface. *)
Class PyStr : Type := {
  (** [s.lower()] *)
  str_lower : string -> string
}.

(** On texts of ASCII characters [str.lower] is [Str.lower]. *)
Module AsciiText.

Definition fold : PyStr := {| str_lower := Str.lower |}.

End AsciiText.

(** The functions of [ntpath] and [os.path] that the program calls.  They
    belong to the Python library and [os.path] differs between hosts, so
    the development takes them as an interface. *)
Class PathLib : Type := {
  (** [ntpath.split] *)
  split : string -> string * string;
  (** [os.path.splitext] *)
  splitext : string -> string * string;
  (** [os.path.join], with two arguments *)
  join : string -> string -> string
}.

(** [ntpath.dirname] and [ntpath.basename] are the two halves of
    [ntpath.split]. *)
Definition dirname `{PathLib} (p : string) : string := fst (split p).
Definition basename `{PathLib} (p : string) : string := snd (split p).

(** A POSIX host: [ntpath.split] with [posixpath.splitext] and
    [posixpath.join], after the library of Python 3.11. *)
Module Posix.

Import Str.

Definition is_ntsep (c : ascii) : bool :=
  (Ascii.eqb c "/" || Ascii.eqb c "\")%bool.

(** [p.replace(altsep, sep)], character by character. *)
Definition normsep (c : ascii) : ascii :=
  if Ascii.eqb c "/" then "\"%char else c.

(** [ntpath.splitdrive]: a UNC drive [\\host\share] (also behind
    [\\?\UNC\]) when the path starts with two separators, else the
    two-character drive [X:].  The upper-cased prefix is compared with a
    text of ASCII characters, so only the ASCII letters matter to it. *)
Definition splitdrive (p : string) : string * string :=
  let cs := chars p in
  if Nat.leb 2 (List.length cs) then
    let normp := map normsep cs in
    if String.eqb (of_chars (firstn 2 normp)) "\\" then
      let start :=
        if String.eqb (of_chars (map upper_char (firstn 8 normp)))
                      "\\?\UNC\"
        then 8%nat else 2%nat in
      match find "\" normp start with
      | None => (p, EmptyString)
      | Some index =>
          match find "\" normp (index + 1) with
          | None => (p, EmptyString)
          | Some index2 =>
              (of_chars (firstn index2 cs), of_chars (skipn index2 cs))
          end
      end
    else if String.eqb (of_chars (firstn 1 (skipn 1 normp))) ":" then
      (of_chars (firstn 2 cs), of_chars (skipn 2 cs))
    else (EmptyString, p)
  else (EmptyString, p).

Definition ntpath_split (p : string) : string * string :=
  let '(d, p) := splitdrive p in
  let r := rev (chars p) in
  let tail := rev (takewhile (fun c => negb (is_ntsep c)) r) in
  let head_r := dropwhile (fun c => negb (is_ntsep c)) r in
  let stripped := rev (dropwhile is_ntsep head_r) in
  let head := match stripped with [] => rev head_r | _ => stripped end in
  ((d ++ of_chars head)%string, of_chars tail).

Definition is_dot (c : ascii) : bool := Ascii.eqb c ".".
Definition is_sep (c : ascii) : bool := Ascii.eqb c "/".

Definition posixpath_splitext (p : string) : string * string :=
  let r := rev (chars p) in
  let ext_r := takewhile (fun c => negb (is_dot c)) r in
  match dropwhile (fun c => negb (is_dot c)) r with
  | [] => (p, EmptyString)
  | _dot :: root_r =>
      if existsb is_sep ext_r then (p, EmptyString)
      else
        let name_r := takewhile (fun c => negb (is_sep c)) root_r in
        if forallb is_dot name_r then (p, EmptyString)
        else (of_chars (rev root_r), of_chars ("."%char :: rev ext_r))
  end.

Definition posixpath_join (a b : string) : string :=
  if startswith b "/" then b
  else if (negb (nonempty a) || endswith a "/")%bool then (a ++ b)%string
  else (a ++ "/" ++ b)%string.

#[export] Instance host : PathLib :=
  {| split := ntpath_split; splitext := posixpath_splitext;
     join := posixpath_join |}.

End Posix.

(** ** File classification *)

Definition EXIF_DATE_TIME_ORIGINAL : string := "EXIF DateTimeOriginal".

Definition image_extensions : list string := [".jpg"; ".jpeg"]%string.

Definition video_extensions : list string := [".mp4"; ".mov"; ".avi"]%string.

Definition has_extension {S : PyStr} (file : string)
  (extensions : list string) : bool :=
  existsb (fun ext => Str.endswith (str_lower file) ext) extensions.

Definition is_image {S : PyStr} (file : string) : bool :=
  has_extension file image_extensions.

Definition is_video {S : PyStr} (file : string) : bool :=
  has_extension file video_extensions.

(** ** The target name of a file *)

Definition renamed_file_name `{PathLib} (file : string)
  (target_datetime : datetime) : string :=
  let '(head, tail) := split file in
  let dir_name := if Str.nonempty tail then head else dirname head in
  let file_name := if Str.nonempty tail then tail else basename head in
  let extension := snd (splitext file_name) in
  join dir_name (strftime target_datetime ++ extension)%string.

(** ** The planner: [calculate_renamings] *)

(** The input [file_to_time_map], the intermediate [renamings] (keyed by
    assigned instant) and the returned plan (keyed by file). *)
Definition file_to_time_map : Type := dict string datetime.
Definition renamings_map : Type := dict datetime (string * bool).
Definition plan : Type := dict string (string * bool).

(** [sorted(file_to_time_map.items(), key=lambda p: p[1])].  Python's sort
    is stable; so is this insertion sort, and [sorted_unique] below shows
    that a stable sort has only one possible result. *)
Fixpoint insert_by_time (p : string * datetime) (l : list (string * datetime))
  : list (string * datetime) :=
  match l with
  | [] => [p]
  | q :: l' =>
      if snd p <=? snd q then p :: q :: l' else q :: insert_by_time p l'
  end.

Fixpoint sorted (items : list (string * datetime)) : list (string * datetime) :=
  match items with
  | [] => []
  | p :: items' => insert_by_time p (sorted items')
  end.

(** The number of assigned instants at or after [time]: it decreases each
    time the loop below finds [time] taken and moves on. *)
Definition taken_from (time : datetime) (renamings : renamings_map) : nat :=
  length (filter (fun k => time <=? k) (dict_keys renamings)).

Definition inspect {A} (a : A) : {b : A | a = b} := exist _ a eq_refl.

(** The body of the [for] loop: starting at the file's own instant, step
    one second at a time until an instant that is no key of [renamings],
    and record the file there. *)
Equations? resolve_collision (renamings : renamings_map) (file : string)
  (original_time time : datetime) : result renamings_map
  by wf (taken_from time renamings) lt :=
  resolve_collision renamings file original_time time
    with inspect (dict_contains Z.eqb time renamings) := {
    | exist _ true _ with inspect (add time (timedelta_seconds 1)) := {
        | exist _ (Ok time') _ =>
            resolve_collision renamings file original_time time'
        | exist _ (Raise e) _ => Raise e }
    | exist _ false _ =>
        Ok (dict_set Z.eqb time (file, negb (time =? original_time))
              renamings) }.
Proof.
  revert e0. unfold add, timedelta_seconds.
  destruct (_ && _); [|discriminate].
  intros [= <-].
  unfold taken_from, dict_contains, dict_keys in *.
  assert (Hle : forall l : list Z,
             (length (filter (fun k => (time + 1000000 <=? k)%Z) l)
              <= length (filter (fun k => (time <=? k)%Z) l))%nat).
  { induction l as [|k l IH]; simpl; [lia|].
    destruct (Z.leb_spec (time + 1000000) k), (Z.leb_spec time k);
      simpl; lia. }
  clear resolve_collision.
  induction renamings as [|[k v] r IH]; simpl in e; [discriminate|].
  simpl. specialize (Hle (map fst r)).
  destruct (Z.eqb_spec time k) as [<-|Hne].
  - destruct (Z.leb_spec (time + 1000000) time), (Z.leb_spec time time);
      simpl; lia.
  - simpl in e. specialize (IH e).
    destruct (Z.leb_spec (time + 1000000) k), (Z.leb_spec time k);
      simpl; lia.
Qed.

(** The first [for] loop, over [sorted_info]. *)
Fixpoint assign (sorted_info : list (string * datetime))
  (renamings : renamings_map) : result renamings_map :=
  match sorted_info with
  | [] => Ok renamings
  | (file, original_time) :: rest =>
      renamings' <- resolve_collision renamings file original_time
                      original_time ;;
      assign rest renamings'
  end.

(** The second [for] loop, over [renamings.items()]. *)
Fixpoint build_result `{PathLib} (items : list (datetime * (string * bool)))
  (result : plan) : plan :=
  match items with
  | [] => result
  | (target_datetime, (file, strategy_applied)) :: rest =>
      let renamed_file := renamed_file_name file target_datetime in
      build_result rest
        (dict_set String.eqb file (renamed_file, strategy_applied) result)
  end.

Definition calculate_renamings `{PathLib} (m : file_to_time_map)
  : result plan :=
  let sorted_info := sorted m in
  renamings <- assign sorted_info [] ;;
  Ok (build_result renamings []).

(** ** The timestamp resolver *)

Section Resolver.

(** A POSIX timestamp as [os.stat] reports it, and
    [datetime.fromtimestamp], the host's conversion to local time. *)
Variable timestamp : Type.
Variable fromtimestamp : timestamp -> result datetime.

(** [datetime.strptime(s, '%Y:%m:%d %H:%M:%S')]; [ValueError] when [s]
    does not match. *)
Variable strptime : string -> result datetime.

(** [os.stat(file)]: [st_birthtime] is missing on hosts without it, and
    reading it there raises [AttributeError]. *)
Record stat_result : Type := {
  st_birthtime : option timestamp;
  st_mtime : timestamp
}.

(** What the program observes of its host. *)
Record host : Type := {
  (** [platform.system()] *)
  system : string;
  (** [os.path.getctime(file)] *)
  getctime : string -> result timestamp;
  (** [os.stat(file)] *)
  stat : string -> result stat_result;
  (** [open(file, 'rb')] followed by [exifread.process_file]: each tag
      with its [printable] form *)
  process_file : string -> result (dict string string)
}.

Definition creation_time (w : host) (file : string) : result datetime :=
  if String.eqb (system w) "Windows" then
    ctime <- getctime w file ;;
    fromtimestamp ctime
  else
    stats <- stat w file ;;
    match st_birthtime stats with
    | Some birthtime => fromtimestamp birthtime
    | None => fromtimestamp (st_mtime stats)
    end.

(** [Ok None] is the Python result [None]. *)
Definition exif_creation_time (w : host) (file : string)
  : result (option datetime) :=
  tags <- process_file w file ;;
  match dict_get String.eqb EXIF_DATE_TIME_ORIGINAL tags with
  | None => Ok None
  | Some date_time =>
      t <- strptime date_time ;;
      Ok (Some t)
  end.

Definition exif_time_else_creation_time (w : host) (file : string)
  : result datetime :=
  exif_info <- exif_creation_time w file ;;
  match exif_info with
  | None => creation_time w file
  | Some t => Ok t
  end.

(** The two extraction loops of [main]: every image goes through
    [exif_time_else_creation_time], every video through
    [creation_time]. *)
Fixpoint extract (resolve : string -> result datetime) (files : list string)
  (info_map : file_to_time_map) : result file_to_time_map :=
  match files with
  | [] => Ok info_map
  | file :: rest =>
      t <- resolve file ;;
      extract resolve rest (dict_set String.eqb file t info_map)
  end.

Context {S : PyStr}.

Definition images_info_map (w : host) (files : list string)
  : result file_to_time_map :=
  extract (exif_time_else_creation_time w) (filter is_image files) [].

Definition video_files_map (w : host) (files : list string)
  : result file_to_time_map :=
  extract (creation_time w) (filter is_video files) [].

End Resolver.

Arguments st_birthtime {timestamp} s.
Arguments st_mtime {timestamp} s.
Arguments system {timestamp} h.
Arguments getctime {timestamp} h file.
Arguments stat {timestamp} h file.
Arguments process_file {timestamp} h file.
Arguments creation_time {timestamp} fromtimestamp w file.
Arguments exif_creation_time {timestamp} strptime w file.
Arguments exif_time_else_creation_time {timestamp} fromtimestamp strptime
  w file.
Arguments images_info_map {timestamp} fromtimestamp strptime {S} w files.
Arguments video_files_map {timestamp} fromtimestamp {S} w files.

(** A reference host for the examples: timestamps are microseconds since
    1970-01-01 00:00:00 and local time is UTC; the parser accepts the
    fixed-width form [YYYY:MM:DD HH:MM:SS]. *)
Module Reference.

Definition epoch : datetime := make 1970 1 1 0 0 0 0.

Definition fromtimestamp (ts : Z) : result datetime := add epoch ts.

Definition digit_value (c : ascii) : option Z :=
  let n := nat_of_ascii c in
  if (Nat.leb 48 n && Nat.leb n 57)%bool then Some (Z.of_nat (n - 48))
  else None.

Fixpoint number (s : string) (acc : Z) : option Z :=
  match s with
  | EmptyString => Some acc
  | String c s' =>
      match digit_value c with
      | Some d => number s' (acc * 10 + d)
      | None => None
      end
  end.

Definition field (s : string) (start len : nat) : option Z :=
  number (substring start len s) 0.

Definition separator (s : string) (i : nat) (c : ascii) : bool :=
  match get i s with
  | Some c' => Ascii.eqb c c'
  | None => false
  end.

Definition strptime (s : string) : result datetime :=
  if (Nat.eqb (String.length s) 19
      && separator s 4 ":" && separator s 7 ":" && separator s 10 " "
      && separator s 13 ":" && separator s 16 ":")%bool
  then
    match field s 0 4, field s 5 2, field s 8 2,
          field s 11 2, field s 14 2, field s 17 2 with
    | Some y, Some m, Some d, Some hh, Some mm, Some ss =>
        if (1 <=? y) && (1 <=? m) && (m <=? 12)
           && (1 <=? d) && (d <=? days_in_month y m)
           && (hh <=? 23) && (mm <=? 59) && (ss <=? 59)
        then Ok (make y m d hh mm ss 0)
        else Raise ValueError
    | _, _, _, _, _, _ => Raise ValueError
    end
  else Raise ValueError.

(** The timestamp of a local instant on this host. *)
Definition timestamp_of (t : datetime) : Z := t - epoch.

(** A host other than Windows on which every file carries the given
    capture-time field (if any), birth time (if the host has one) and
    last-modified time. *)
Definition unix_host (date_time : option string) (birthtime : option Z)
  (mtime : Z) : host Z :=
  {| system := "Linux";
     getctime := fun _ => Ok mtime;
     stat := fun _ => Ok {| st_birthtime := birthtime; st_mtime := mtime |};
     process_file := fun _ =>
       Ok (("Image Make", "Canon")
           :: match date_time with
              | Some s => [(EXIF_DATE_TIME_ORIGINAL, s)]
              | None => []
              end)%string |}.

End Reference.

(** ** Reporting the plan: [dump_renamings] *)

(** The constants of [colorama] that the report uses. *)
Class Colorama : Type := {
  Style_BRIGHT : string;
  Style_DIM : string;
  Style_RESET_ALL : string;
  Fore_YELLOW : string;
  Fore_GREEN : string
}.

(** The ANSI escape sequences that [colorama] defines. *)
Module Ansi.

Definition CSI : string := String (ascii_of_nat 27) "[".

#[export] Instance colorama : Colorama :=
  {| Style_BRIGHT := (CSI ++ "1m")%string;
     Style_DIM := (CSI ++ "2m")%string;
     Style_RESET_ALL := (CSI ++ "0m")%string;
     Fore_YELLOW := (CSI ++ "33m")%string;
     Fore_GREEN := (CSI ++ "32m")%string |}.

End Ansi.

(** [sorted(renamings_map.items(), key=lambda p: p[1][0])]: the stable
    sort by target name, strings being compared lexicographically. *)
Fixpoint insert_by_name (p : string * (string * bool))
  (l : list (string * (string * bool))) : list (string * (string * bool)) :=
  match l with
  | [] => [p]
  | q :: l' =>
      if String.leb (fst (snd p)) (fst (snd q)) then p :: q :: l'
      else q :: insert_by_name p l'
  end.

Fixpoint sorted_by_name (items : list (string * (string * bool)))
  : list (string * (string * bool)) :=
  match items with
  | [] => []
  | p :: items' => insert_by_name p (sorted_by_name items')
  end.

(** ['{}{}{} -> {}{}'.format(style, color, original, renamed,
    Style.RESET_ALL)] *)
Definition report_line `{Colorama} (original renamed : string)
  (collision : bool) : string :=
  let style := if collision then Style_BRIGHT else Style_DIM in
  let color := if collision then Fore_YELLOW else Fore_GREEN in
  (style ++ color ++ original ++ " -> " ++ renamed ++ Style_RESET_ALL)%string.

(** The loop of [dump_renamings]: [result] is the [OrderedDict] under
    construction and [printed] the lines written so far. *)
Fixpoint dump_loop `{Colorama} (items : list (string * (string * bool)))
  (result : dict string string) (printed : list string)
  : dict string string * list string :=
  match items with
  | [] => (result, printed)
  | (original, (renamed, collision)) :: rest =>
      dump_loop rest (dict_set String.eqb original renamed result)
        (printed ++ [report_line original renamed collision])
  end.

(** Returns the [OrderedDict] and the lines printed. *)
Definition dump_renamings `{Colorama} (renamings_map : plan)
  : dict string string * list string :=
  dump_loop (sorted_by_name renamings_map) [] [].

(** ** Executing the plan: [rename_files] *)

Section Execution.

(** The filesystem and [os.rename]; a rename that raises changes
    nothing. *)
Variable filesystem : Type.
Variable rename : filesystem -> string -> string -> result filesystem.

(** The loop of [rename_files]: [updates] are the values passed to
    [progress_bar.update] (the label and the widgets only change what the
    bar displays).  When [rename] raises, the loop stops there with the
    filesystem as the renames so far left it. *)
Fixpoint rename_loop (items : list (string * string)) (file_counter : nat)
  (fs : filesystem) (updates : list nat)
  : filesystem * list nat * option exception :=
  match items with
  | [] => (fs, updates, None)
  | (original, renamed) :: rest =>
      let file_counter := S file_counter in
      let updates := updates ++ [file_counter] in
      match rename fs original renamed with
      | Ok fs' => rename_loop rest file_counter fs' updates
      | Raise e => (fs, updates, Some e)
      end
  end.

Definition rename_files (renamings_map : dict string string)
  (fs : filesystem) : filesystem * list nat * option exception :=
  rename_loop renamings_map 0 fs [].

End Execution.

Arguments rename_loop {filesystem} rename items file_counter fs updates.
Arguments rename_files {filesystem} rename renamings_map fs.

(** A filesystem for the examples: the content of each path, with the
    [os.rename] of a POSIX host, which replaces the target. *)
Module Files.

Definition filesystem : Type := string -> option nat.

Definition read (fs : filesystem) (path : string) : option nat := fs path.

Definition rename (fs : filesystem) (original renamed : string)
  : result filesystem :=
  match fs original with
  | None => Raise OSError
  | Some content =>
      Ok (fun path =>
            if String.eqb path renamed then Some content
            else if String.eqb path original then None
            else fs path)
  end.

(** The files of the given list, and nothing else. *)
Definition of_list (files : list (string * nat)) : filesystem :=
  fun path => dict_get String.eqb path files.

End Files.

(** ** Vocabulary of the statements *)

Definition time_le (p q : string * datetime) : Prop := snd p <= snd q.

(** The entries of a list whose instant is [t], in the order of the list. *)
Definition at_time (t : datetime) (l : list (string * datetime))
  : list (string * datetime) :=
  filter (fun p => snd p =? t) l.

(** [n] seconds after [t]. *)
Definition later (t : datetime) (n : nat) : datetime :=
  t + Z.of_nat n * 1000000.

(** [placed p q]: the entry [q] of [renamings] records the file of the
    input pair [p], some whole seconds after its own instant, with the
    flag saying whether it moved. *)
Definition placed (p : string * datetime) (q : datetime * (string * bool))
  : Prop :=
  fst (snd q) = fst p
  /\ (exists k : nat, fst q = later (snd p) k)
  /\ snd (snd q) = negb (fst q =? snd p).

Definition file_of (q : datetime * (string * bool)) : string := fst (snd q).

(** The entry of the plan that the second loop writes for an entry of
    [renamings]. *)
Definition plan_entry `{PathLib} (q : datetime * (string * bool))
  : string * (string * bool) :=
  (file_of q, (renamed_file_name (file_of q) (fst q), snd (snd q))).


(** The target name of a plan entry orders the report. *)
Definition name_le (p q : string * (string * bool)) : Prop :=
  String.leb (fst (snd p)) (fst (snd q)) = true.

(** What [dump_renamings] keeps of a plan entry. *)
Definition reported (e : string * (string * bool)) : string * string :=
  (fst e, fst (snd e)).

(** The directory and the extension that [renamed_file_name] keeps of a
    file. *)
Definition dir_name_of `{PathLib} (file : string) : string :=
  let '(head, tail) := split file in
  if Str.nonempty tail then head else dirname head.

Definition extension_of `{PathLib} (file : string) : string :=
  let '(head, tail) := split file in
  snd (splitext (if Str.nonempty tail then tail else basename head)).

(** A check of [ord2ymd] on the day [r + 1] of the first 400 years: the
    date is in range, a day of its month, and [ymd2ord] maps it back to
    the day. *)
Definition cycle_ok (r : Z) : bool :=
  let '(y, m, d) := ord2ymd (r + 1) in
  (1 <=? y) && (y <=? 400) && (1 <=? m) && (m <=? 12)
  && (1 <=? d) && (d <=? 31) && (d <=? days_in_month y m)
  && ((145730 <? r) || (y <=? 399)) && (ymd2ord y m d =? r + 1).

Fixpoint cycle_check (fuel : nat) (r : Z) : bool :=
  match fuel with
  | O => true
  | S fuel' => if cycle_ok r then cycle_check fuel' (r + 1) else false
  end.

(** Strings none of whose characters, or all of whose characters,
    satisfy [f]. *)
Definition no_char (f : ascii -> bool) (s : string) : bool :=
  forallb (fun c => negb (f c)) (Str.chars s).

Definition all_chars (f : ascii -> bool) (s : string) : bool :=
  forallb f (Str.chars s).

(** The ASCII characters. *)
Definition is_ascii (c : ascii) : bool := Nat.ltb (nat_of_ascii c) 128.

(** The paths in which [ntpath.splitdrive] looks for a drive: those that
    start with two separators, and those whose second character is a
    colon. *)
Definition has_drive (p : string) : bool :=
  match p with
  | String a (String b _) =>
      (Posix.is_ntsep a && Posix.is_ntsep b) || Ascii.eqb b ":"
  | _ => false
  end.

(** The number of whole seconds [s], [s + 1], ... that are not after
    [datetime_max]. *)
Definition seconds_left (s : datetime) : nat :=
  Z.to_nat ((datetime_max - s) / 1000000 + 1).

(** The entries of a list whose instant is [s] or a whole number of
    seconds after [s], in the order of the list. *)
Definition captured_from (s : datetime) (l : list (string * datetime))
  : list (string * datetime) :=
  filter (fun p => (s <=? snd p) && ((snd p - s) mod 1000000 =? 0)) l.

(** * Properties *)

(** ** Examples *)

Example strftime_scenario_A :
  strftime (make 2020 1 1 10 0 0 0) = "2020-01-01 10:00:00"%string.
Proof. vm_compute. reflexivity. Qed.

Example strftime_ignores_microseconds :
  strftime (make 2019 5 5 8 30 0 123456) = "2019-05-05 08:30:00"%string.
Proof. vm_compute. reflexivity. Qed.

Example datetime_max_is_last_microsecond :
  make 9999 12 31 23 59 59 999999 = datetime_max
  /\ strftime datetime_max = "9999-12-31 23:59:59"%string
  /\ add datetime_max (timedelta_seconds 1) = Raise OverflowError.
Proof. vm_compute. repeat split. Qed.

Example strftime_leap_day :
  strftime (make 2024 2 29 23 59 59 0) = "2024-02-29 23:59:59"%string
  /\ add (make 2024 2 29 23 59 59 0) (timedelta_seconds 1)
     = Ok (make 2024 3 1 0 0 0 0)
  /\ strftime (make 1900 3 1 0 0 0 0) = "1900-03-01 00:00:00"%string
  /\ strftime (make 2000 12 31 0 0 0 0) = "2000-12-31 00:00:00"%string
  /\ strftime 0 = "0001-01-01 00:00:00"%string.
Proof. vm_compute. repeat split. Qed.

Example renamed_file_name_posix :
  renamed_file_name (H := Posix.host) "/photos/IMG_0001.JPG"
    (make 2020 1 1 10 0 0 0) = "/photos/2020-01-01 10:00:00.JPG"%string
  /\ renamed_file_name (H := Posix.host) "a.jpg" (make 2020 1 1 10 0 0 0)
     = "2020-01-01 10:00:00.jpg"%string
  /\ renamed_file_name (H := Posix.host) "/photos/clips/"
       (make 2020 1 1 10 0 0 0) = "/photos/2020-01-01 10:00:00"%string
  /\ is_image (S := AsciiText.fold) "/photos/IMG_0001.JPG" = true
  /\ is_video (S := AsciiText.fold) "/photos/IMG_0001.JPG" = false
  /\ is_video (S := AsciiText.fold) "clip.MoV" = true.
Proof. vm_compute. repeat split. Qed.

Example scenario_A :
  calculate_renamings (H := Posix.host)
    [("a.jpg", make 2020 1 1 10 0 0 0);
     ("b.jpg", make 2020 1 1 10 0 0 0);
     ("c.jpg", make 2020 1 1 10 0 0 0)]%string
  = Ok [("a.jpg", ("2020-01-01 10:00:00.jpg", false));
        ("b.jpg", ("2020-01-01 10:00:01.jpg", true));
        ("c.jpg", ("2020-01-01 10:00:02.jpg", true))]%string.
Proof. vm_compute. reflexivity. Qed.

Example scenario_B :
  let w := Reference.unix_host None None
             (Reference.timestamp_of (make 2019 5 5 8 30 0 0)) in
  (m <- video_files_map (S := AsciiText.fold) Reference.fromtimestamp w
          ["clip.mp4"; "notes.txt"]%string ;;
   calculate_renamings (H := Posix.host) m)
  = Ok [("clip.mp4", ("2019-05-05 08:30:00.mp4", false))]%string.
Proof. vm_compute. reflexivity. Qed.

Example strptime_examples :
  Reference.strptime "2020:01:01 10:00:00" = Ok (make 2020 1 1 10 0 0 0)
  /\ Reference.strptime "2020:02:30 10:00:00" = Raise ValueError
  /\ Reference.strptime "2020-01-01 10:00:00" = Raise ValueError
  /\ Reference.strptime "0000:00:00 00:00:00" = Raise ValueError
  /\ Reference.strptime "" = Raise ValueError.
Proof. vm_compute. repeat split. Qed.

(** ** Facts about dicts *)

Section DictFacts.

Context {K V : Type}.
Variable eqb : K -> K -> bool.
Hypothesis eqb_eq : forall a b, eqb a b = true <-> a = b.

Lemma dict_contains_keys (k : K) (d : dict K V) :
  dict_contains eqb k d = true <-> In k (dict_keys d).
Proof.
  unfold dict_contains, dict_keys. rewrite existsb_exists, in_map_iff.
  split.
  - intros [p [Hp He]]. apply eqb_eq in He. exists p. auto.
  - intros [p [He Hp]]. exists p. split; [assumption|]. apply eqb_eq. auto.
Qed.

Lemma dict_contains_false (k : K) (d : dict K V) :
  dict_contains eqb k d = false <-> ~ In k (dict_keys d).
Proof.
  rewrite <- dict_contains_keys. destruct (dict_contains eqb k d); split;
    intros; try discriminate; try reflexivity; congruence.
Qed.

(** Setting a key that is not there appends it. *)
Lemma dict_set_absent (k : K) (v : V) (d : dict K V) :
  ~ In k (dict_keys d) -> dict_set eqb k v d = d ++ [(k, v)].
Proof.
  induction d as [|[k' v'] d IH]; simpl; intros Hk; [reflexivity|].
  destruct (eqb k k') eqn:E.
  - apply eqb_eq in E. exfalso. apply Hk. left. auto.
  - rewrite IH; auto.
Qed.

Lemma dict_get_In (k : K) (v : V) (d : dict K V) :
  is_dict d -> In (k, v) d -> dict_get eqb k d = Some v.
Proof.
  unfold is_dict, dict_keys.
  induction d as [|[k' v'] d IH]; simpl; intros Hnd Hin; [contradiction|].
  inversion Hnd as [|? ? Hk' Hnd']; subst.
  destruct Hin as [[= -> ->]|Hin].
  - assert (E : eqb k k = true) by (apply eqb_eq; reflexivity).
    rewrite E. reflexivity.
  - destruct (eqb k k') eqn:E.
    + apply eqb_eq in E. subst k'. exfalso. apply Hk'.
      apply in_map_iff. exists (k, v). auto.
    + auto.
Qed.

Lemma dict_get_Some_In (k : K) (v : V) (d : dict K V) :
  dict_get eqb k d = Some v -> In (k, v) d.
Proof.
  induction d as [|[k' v'] d IH]; simpl; [discriminate|].
  destruct (eqb k k') eqn:E.
  - apply eqb_eq in E. intros [= ->]. left. congruence.
  - intros H. right. auto.
Qed.

Lemma dict_get_set_same (k : K) (v : V) (d : dict K V) :
  dict_get eqb k (dict_set eqb k v d) = Some v.
Proof.
  assert (Ek : eqb k k = true) by (apply eqb_eq; reflexivity).
  induction d as [|[k' v'] d IH]; simpl.
  - rewrite Ek. reflexivity.
  - destruct (eqb k k') eqn:E; simpl; rewrite E; auto.
Qed.

Lemma dict_get_set_other (k k0 : K) (v : V) (d : dict K V) :
  k <> k0 -> dict_get eqb k (dict_set eqb k0 v d) = dict_get eqb k d.
Proof.
  intros Hne.
  assert (Ek : eqb k k0 = false).
  { destruct (eqb k k0) eqn:E; [apply eqb_eq in E; contradiction | auto]. }
  induction d as [|[k' v'] d IH]; simpl.
  - rewrite Ek. reflexivity.
  - destruct (eqb k0 k') eqn:E0; simpl.
    + apply eqb_eq in E0. subst k'. rewrite Ek. reflexivity.
    + destruct (eqb k k'); auto.
Qed.

End DictFacts.

(** ** Facts about the stable sort *)

Lemma insert_by_time_perm p l : Permutation (insert_by_time p l) (p :: l).
Proof.
  induction l as [|q l IH]; simpl; [reflexivity|].
  destruct (snd p <=? snd q); [reflexivity|].
  rewrite IH. apply perm_swap.
Qed.

Lemma sorted_perm l : Permutation (sorted l) l.
Proof.
  induction l as [|p l IH]; simpl; [reflexivity|].
  rewrite insert_by_time_perm. constructor. exact IH.
Qed.

Lemma insert_by_time_sorted p l :
  StronglySorted time_le l -> StronglySorted time_le (insert_by_time p l).
Proof.
  induction 1 as [|q l Hs IH Hq]; simpl.
  - constructor; constructor.
  - destruct (snd p <=? snd q) eqn:E.
    + apply Z.leb_le in E. constructor.
      * constructor; assumption.
      * constructor; [exact E|].
        eapply Forall_impl; [|exact Hq]. unfold time_le. intros; lia.
    + apply Z.leb_gt in E. constructor; [exact IH|].
      rewrite Forall_forall. intros x Hx.
      apply (Permutation_in _ (insert_by_time_perm p l)) in Hx.
      destruct Hx as [<-|Hx].
      * unfold time_le. lia.
      * rewrite Forall_forall in Hq. auto.
Qed.

Lemma sorted_sorted l : StronglySorted time_le (sorted l).
Proof.
  induction l as [|p l IH]; simpl; [constructor|].
  apply insert_by_time_sorted. exact IH.
Qed.

(** Stability: entries with equal instants keep their input order. *)
Lemma insert_by_time_at_time t p l :
  at_time t (insert_by_time p l) = at_time t (p :: l).
Proof.
  unfold at_time. induction l as [|q l IH]; [reflexivity|].
  simpl insert_by_time. destruct (snd p <=? snd q) eqn:E; [reflexivity|].
  apply Z.leb_gt in E. cbn [filter]. rewrite IH. cbn [filter].
  destruct (snd q =? t) eqn:Eq, (snd p =? t) eqn:Ep; try reflexivity.
  apply Z.eqb_eq in Eq, Ep. lia.
Qed.

Lemma sorted_stable t l : at_time t (sorted l) = at_time t l.
Proof.
  induction l as [|p l IH]; [reflexivity|].
  simpl sorted. rewrite insert_by_time_at_time.
  unfold at_time in *. simpl. rewrite IH. reflexivity.
Qed.

(** Two lists sorted by instant that agree on the entries of each instant,
    in order, are equal. *)
Lemma stable_sort_unique l1 :
  forall l2,
    StronglySorted time_le l1 -> StronglySorted time_le l2 ->
    (forall t, at_time t l1 = at_time t l2) ->
    l1 = l2.
Proof.
  unfold at_time.
  induction l1 as [|p l1 IH]; intros l2 H1 H2 Hf.
  - destruct l2 as [|q l2]; [reflexivity|].
    specialize (Hf (snd q)). simpl in Hf. rewrite Z.eqb_refl in Hf.
    discriminate.
  - destruct l2 as [|q l2].
    + specialize (Hf (snd p)). simpl in Hf. rewrite Z.eqb_refl in Hf.
      discriminate.
    + inversion H1 as [|? ? H1' Hp]; subst.
      inversion H2 as [|? ? H2' Hq]; subst.
      rewrite Forall_forall in Hp, Hq.
      assert (Hpq : snd p <= snd q).
      { pose proof (Hf (snd q)) as Hfq. simpl in Hfq.
        rewrite Z.eqb_refl in Hfq.
        destruct (snd p =? snd q) eqn:E; [apply Z.eqb_eq in E; lia|].
        assert (Hin : In q (filter (fun x => snd x =? snd q) l1))
          by (rewrite Hfq; left; reflexivity).
        apply filter_In in Hin. apply (Hp q), Hin. }
      assert (Hqp : snd q <= snd p).
      { pose proof (Hf (snd p)) as Hfp. simpl in Hfp.
        rewrite Z.eqb_refl in Hfp.
        destruct (snd q =? snd p) eqn:E; [apply Z.eqb_eq in E; lia|].
        assert (Hin : In p (filter (fun x => snd x =? snd p) l2))
          by (rewrite <- Hfp; left; reflexivity).
        apply filter_In in Hin. apply (Hq p), Hin. }
      assert (Heq : p = q).
      { pose proof (Hf (snd p)) as Hfp. simpl in Hfp.
        rewrite Z.eqb_refl in Hfp.
        assert (E : (snd q =? snd p) = true) by (apply Z.eqb_eq; lia).
        rewrite E in Hfp. congruence. }
      subst q. f_equal. apply IH; try assumption.
      intros t. specialize (Hf t). simpl in Hf.
      destruct (snd p =? t); congruence.
Qed.

(** Whatever stable sort is used, the result is that of [sorted]. *)
Lemma sorted_unique l l' :
  StronglySorted time_le l' ->
  (forall t, at_time t l' = at_time t l) ->
  l' = sorted l.
Proof.
  intros Hs Hf. apply stable_sort_unique; auto using sorted_sorted.
  intros t. rewrite sorted_stable. apply Hf.
Qed.

(** Two enumerations that list the entries of each instant in the same
    order are sorted alike. *)
Lemma sorted_tie_order m1 m2 :
  (forall t, at_time t m1 = at_time t m2) -> sorted m1 = sorted m2.
Proof.
  intros Hf. apply stable_sort_unique; auto using sorted_sorted.
  intros t. rewrite !sorted_stable. apply Hf.
Qed.

(** ** Facts about the collision loop *)

Lemma filter_length_lt {A} (f g : A -> bool) (l : list A) (x : A) :
  (forall y, f y = true -> g y = true) ->
  In x l -> g x = true -> f x = false ->
  (length (filter f l) < length (filter g l))%nat.
Proof.
  intros Hfg Hin Hg Hf.
  assert (Hle : forall l', (length (filter f l') <= length (filter g l'))%nat).
  { induction l' as [|y l' IH]; simpl; [lia|].
    destruct (f y) eqn:Efy.
    - rewrite (Hfg _ Efy). simpl. lia.
    - destruct (g y); simpl; lia. }
  induction l as [|y l IH]; simpl in *; [contradiction|].
  destruct Hin as [->|Hin].
  - rewrite Hf, Hg. simpl. specialize (Hle l). lia.
  - specialize (IH Hin). destruct (f y) eqn:Efy.
    + rewrite (Hfg _ Efy). simpl. lia.
    + destruct (g y); simpl; lia.
Qed.

Lemma dict_contains_In {V} (k : Z) (d : dict Z V) :
  dict_contains Z.eqb k d = true <-> In k (dict_keys d).
Proof.
  unfold dict_contains, dict_keys. rewrite existsb_exists, in_map_iff.
  split.
  - intros [p [Hp He]]. apply Z.eqb_eq in He. exists p. auto.
  - intros [p [He Hp]]. exists p. split; [assumption|]. apply Z.eqb_eq. auto.
Qed.

Lemma add_second_inv (t t' : datetime) :
  add t (timedelta_seconds 1) = Ok t' ->
  t' = t + 1000000 /\ t + 1000000 <= datetime_max.
Proof.
  unfold add, timedelta_seconds. change (1 * 1000000) with 1000000.
  destruct ((0 <=? t + 1000000) && (t + 1000000 <=? datetime_max)) eqn:E;
    [|discriminate].
  intros [= <-]. apply andb_true_iff in E. destruct E as [_ E].
  apply Z.leb_le in E. auto.
Qed.


Lemma later_0 t : later t 0 = t.
Proof. unfold later. simpl. lia. Qed.

Lemma later_S t n : later (t + 1000000) n = later t (S n).
Proof. unfold later. lia. Qed.

Lemma later_inj t i j : later t i = later t j -> i = j.
Proof. unfold later. lia. Qed.

Lemma later_le t n : t <= later t n.
Proof. unfold later. lia. Qed.

Lemma renamings_free time (r : renamings_map) :
  dict_contains Z.eqb time r = false <-> ~ In time (dict_keys r).
Proof. apply dict_contains_false, Z.eqb_eq. Qed.

Lemma renamings_set_free time v (r : renamings_map) :
  ~ In time (dict_keys r) -> dict_set Z.eqb time v r = r ++ [(time, v)].
Proof. apply dict_set_absent, Z.eqb_eq. Qed.

(** [funelim] keeps the equations between inspected values; the proofs
    below only need the boolean facts. *)
Ltac forget_inspect :=
  repeat match goal with
         | H : sigmaI _ _ _ = sigmaI _ _ _ |- _ => clear H
         | H : _ = resolve_collision _ _ _ _ |- _ => clear H
         end.

(** The loop stops at the first free instant among [time], [time + 1s],
    [time + 2s], ... and appends the file there. *)
Lemma resolve_collision_spec renamings file original_time time renamings' :
  resolve_collision renamings file original_time time = Ok renamings' ->
  exists k : nat,
    renamings' = renamings
      ++ [(later time k, (file, negb (later time k =? original_time)))]
    /\ ~ In (later time k) (dict_keys renamings)
    /\ (forall j, (j < k)%nat -> In (later time j) (dict_keys renamings)).
Proof.
  funelim (resolve_collision renamings file original_time time);
    forget_inspect.
  - intros [= <-]. exists 0%nat. rewrite later_0.
    apply renamings_free in e.
    repeat split.
    + apply renamings_set_free. exact e.
    + exact e.
    + intros j Hj. lia.
  - intros Hr. apply add_second_inv in e0. destruct e0 as [-> _].
    match goal with IH : forall r, _ = Ok r -> _ |- _ =>
      destruct (IH _ Hr) as [k [Heq [Hfree Htaken]]] end.
    exists (S k). rewrite <- later_S. repeat split; try assumption.
    intros j Hj. destruct j as [|j].
    + rewrite later_0. apply dict_contains_In. exact e.
    + rewrite <- later_S. apply Htaken. lia.
  - discriminate.
Qed.

(** The only failure of the loop is the overflow of [datetime]. *)
Lemma resolve_collision_raises renamings file original_time time e :
  resolve_collision renamings file original_time time = Raise e ->
  e = OverflowError.
Proof.
  funelim (resolve_collision renamings file original_time time);
    forget_inspect.
  - discriminate.
  - auto.
  - intros [= <-]. unfold add in *.
    match goal with H : (if ?b then _ else _) = Raise _ |- _ =>
      destruct b; congruence end.
Qed.

Lemma taken_from_le_length t (r : renamings_map) :
  (taken_from t r <= length r)%nat.
Proof.
  unfold taken_from, dict_keys. rewrite <- (length_map fst r).
  apply filter_length_le.
Qed.

(** The loop succeeds when the instants it may visit are all
    representable. *)
Lemma resolve_collision_succeeds renamings file original_time time :
  0 <= time ->
  later time (taken_from time renamings) <= datetime_max ->
  exists renamings',
    resolve_collision renamings file original_time time = Ok renamings'.
Proof.
  funelim (resolve_collision renamings file original_time time);
    forget_inspect; intros H0 Hmax.
  - eexists. reflexivity.
  - apply add_second_inv in e0. destruct e0 as [-> _].
    match goal with IH : _ -> _ -> exists _, _ |- _ => apply IH end; [lia|].
    apply dict_contains_In in e.
    assert (Hlt : (taken_from (time + 1000000) renamings
                   < taken_from time renamings)%nat).
    { unfold taken_from. apply filter_length_lt with (x := time); auto.
      - intros y Hy. apply Z.leb_le in Hy. apply Z.leb_le. lia.
      - apply Z.leb_le. lia.
      - apply Z.leb_gt. lia. }
    unfold later in *. lia.
  - exfalso.
    match goal with Hc : dict_contains _ _ _ = true |- _ =>
      apply dict_contains_In in Hc; rename Hc into Htaken end.
    assert (Hpos : (1 <= taken_from time renamings)%nat).
    { unfold taken_from.
      assert (Hin : In time (filter (fun k => time <=? k) (dict_keys renamings)))
        by (apply filter_In; split; [exact Htaken | apply Z.leb_le; lia]).
      destruct (filter (fun k => time <=? k) (dict_keys renamings));
        [contradiction | simpl; lia]. }
    unfold add, timedelta_seconds in *.
    change (1 * 1000000) with 1000000 in *.
    match goal with H : (if ?b then _ else _) = Raise _ |- _ =>
      destruct b eqn:Eb; [discriminate|] end.
    apply andb_false_iff in Eb. unfold later in Hmax.
    destruct Eb as [Eb|Eb]; apply Z.leb_gt in Eb; lia.
Qed.

(** A free instant is taken at once. *)
Lemma resolve_collision_free renamings file original_time time :
  ~ In time (dict_keys renamings) ->
  resolve_collision renamings file original_time time
  = Ok (renamings ++ [(time, (file, negb (time =? original_time)))]).
Proof.
  funelim (resolve_collision renamings file original_time time);
    forget_inspect; intros Hfree.
  - rewrite renamings_set_free; auto.
  - exfalso. apply Hfree. apply dict_contains_In. assumption.
  - exfalso. apply Hfree. apply dict_contains_In. assumption.
Qed.

(** ** Facts about the two loops *)

Lemma assign_app l1 l2 r :
  assign (l1 ++ l2) r = (r1 <- assign l1 r ;; assign l2 r1).
Proof.
  revert r. induction l1 as [|[f t] l1 IH]; intros r; simpl; [reflexivity|].
  destruct (resolve_collision r f t t); simpl; auto.
Qed.

Lemma is_dict_snoc (r : renamings_map) t v :
  is_dict r -> ~ In t (dict_keys r) -> is_dict (r ++ [(t, v)]).
Proof.
  unfold is_dict, dict_keys. intros Hnd Hfree.
  rewrite map_app. simpl. apply NoDup_app; [assumption | |].
  - constructor; [intros [] | constructor].
  - intros a Ha [<-|[]]. contradiction.
Qed.

(** The first loop appends one entry per input pair, in order, and keeps
    the assigned instants pairwise distinct. *)
Lemma assign_spec l :
  forall r r',
    assign l r = Ok r' ->
    exists new,
      r' = r ++ new /\ Forall2 placed l new /\ (is_dict r -> is_dict r').
Proof.
  induction l as [|[f t] l IH]; intros r r' Hr; simpl in Hr.
  - injection Hr as <-. exists []. rewrite app_nil_r. auto.
  - destruct (resolve_collision r f t t) as [r1|e] eqn:E1; [|discriminate].
    simpl in Hr. apply resolve_collision_spec in E1.
    destruct E1 as [k [-> [Hfree _]]].
    apply IH in Hr. destruct Hr as [new [-> [Hnew Hd]]].
    eexists. split; [rewrite <- app_assoc; reflexivity|]. split.
    + constructor; [|exact Hnew]. unfold placed. simpl. eauto.
    + intros Hr. apply Hd. apply is_dict_snoc; assumption.
Qed.

Lemma assign_raises l :
  forall r e, assign l r = Raise e -> e = OverflowError.
Proof.
  induction l as [|[f t] l IH]; intros r e Hr; simpl in Hr; [discriminate|].
  destruct (resolve_collision r f t t) as [r1|e1] eqn:E1; simpl in Hr.
  - eauto.
  - injection Hr as <-. eapply resolve_collision_raises; eauto.
Qed.

(** The first loop succeeds when every instant is a valid [datetime] with
    room for as many seconds as there are other files. *)
Lemma assign_succeeds l :
  forall r,
    (forall f t, In (f, t) l ->
       0 <= t /\ later t (length r + length l - 1) <= datetime_max) ->
    exists r', assign l r = Ok r'.
Proof.
  induction l as [|[f t] l IH]; intros r Hok; simpl.
  - eauto.
  - destruct (Hok f t (or_introl eq_refl)) as [H0 Hmax].
    destruct (resolve_collision_succeeds r f t t H0) as [r1 E1].
    { pose proof (taken_from_le_length t r). simpl in Hmax.
      unfold later in *. lia. }
    rewrite E1. simpl. apply IH.
    apply resolve_collision_spec in E1. destruct E1 as [k [-> _]].
    intros f' t' Hin. destruct (Hok f' t' (or_intror Hin)) as [H0' Hmax'].
    split; [assumption|].
    rewrite length_app. simpl in *.
    replace (length r + 1 + length l - 1)%nat
      with (length r + S (length l) - 1)%nat by lia.
    exact Hmax'.
Qed.

(** With instants that are pairwise distinct and free, each file is
    recorded at its own instant. *)
Lemma assign_distinct l :
  forall r,
    NoDup (map snd l) ->
    (forall t, In t (map snd l) -> ~ In t (dict_keys r)) ->
    assign l r = Ok (r ++ map (fun p => (snd p, (fst p, false))) l).
Proof.
  induction l as [|[f t] l IH]; intros r Hnd Hfree; simpl.
  - rewrite app_nil_r. reflexivity.
  - inversion Hnd as [|? ? Ht Hnd']; subst.
    rewrite resolve_collision_free by (apply Hfree; left; reflexivity).
    simpl. rewrite Z.eqb_refl. simpl. rewrite IH; [| assumption |].
    + rewrite <- app_assoc. reflexivity.
    + intros t' Hin. unfold dict_keys. rewrite map_app, in_app_iff.
      simpl. intros [H|[<-|[]]].
      * apply (Hfree t'); [right; assumption | exact H].
      * contradiction.
Qed.

Lemma Forall2_placed_files l new :
  Forall2 placed l new -> map file_of new = map fst l.
Proof.
  induction 1 as [|p q l new [Hf _] _ IH]; simpl; [reflexivity|].
  unfold file_of at 1. rewrite Hf, IH. reflexivity.
Qed.

Lemma Forall2_placed_In l new q :
  Forall2 placed l new -> In q new -> exists p, In p l /\ placed p q.
Proof.
  induction 1 as [|p q' l new Hp _ IH]; simpl; [contradiction|].
  intros [<-|Hin].
  - exists p. auto.
  - destruct (IH Hin) as [p' [H1 H2]]. exists p'. auto.
Qed.

Lemma Forall2_placed_In_l l new p :
  Forall2 placed l new -> In p l -> exists q, In q new /\ placed p q.
Proof.
  induction 1 as [|p' q l new Hp _ IH]; simpl; [contradiction|].
  intros [<-|Hin].
  - exists q. auto.
  - destruct (IH Hin) as [q' [H1 H2]]. exists q'. auto.
Qed.

Lemma plan_set_absent (file : string) v (d : plan) :
  ~ In file (dict_keys d) -> dict_set String.eqb file v d = d ++ [(file, v)].
Proof. apply dict_set_absent, String.eqb_eq. Qed.

(** When the files are pairwise distinct the second loop appends one plan
    entry per entry of [renamings], in order. *)
Lemma build_result_spec `{PathLib} items :
  forall acc : plan,
    NoDup (dict_keys acc ++ map file_of items) ->
    build_result items acc = acc ++ map plan_entry items.
Proof.
  induction items as [|[t [f fl]] items IH]; intros acc Hnd; simpl.
  - rewrite app_nil_r. reflexivity.
  - simpl in Hnd. change (file_of (t, (f, fl))) with f in Hnd.
    rewrite plan_set_absent.
    + rewrite IH.
      * rewrite <- app_assoc. reflexivity.
      * unfold dict_keys. rewrite map_app. simpl. rewrite <- app_assoc.
        exact Hnd.
    + apply NoDup_remove_2 in Hnd. intros Hin. apply Hnd.
      apply in_or_app. left. exact Hin.
Qed.

Lemma sorted_files_NoDup (m : file_to_time_map) :
  is_dict m -> NoDup (map fst (sorted m)).
Proof.
  unfold is_dict, dict_keys. intros Hnd.
  eapply Permutation_NoDup; [|exact Hnd].
  apply Permutation_map. symmetry. apply sorted_perm.
Qed.

(** The plan is the image of [renamings], and [renamings] holds one
    entry per input pair in sorted order. *)
Lemma calculate_renamings_spec `{PathLib} (m : file_to_time_map) p :
  is_dict m ->
  calculate_renamings m = Ok p ->
  exists r,
    assign (sorted m) [] = Ok r
    /\ Forall2 placed (sorted m) r
    /\ is_dict r
    /\ p = map plan_entry r.
Proof.
  unfold calculate_renamings. intros Hm Hp.
  destruct (assign (sorted m) []) as [r|e] eqn:E; [|discriminate].
  simpl in Hp. injection Hp as <-.
  destruct (assign_spec _ _ _ E) as [new [Hr [Hnew Hd]]].
  simpl in Hr. subst new.
  exists r. repeat split; try assumption.
  - apply Hd. constructor.
  - rewrite build_result_spec; [reflexivity|].
    simpl. rewrite (Forall2_placed_files _ _ Hnew).
    apply sorted_files_NoDup. exact Hm.
Qed.

(** * The claims *)

Ltac distinct_keys :=
  unfold is_dict, dict_keys; simpl;
  repeat (constructor; [simpl; intuition discriminate|]); constructor.

(** ** Facts about the calendar and the target name *)

(** The 146097 days of a 400-year cycle, checked one by one. *)
Lemma cycle_checked : cycle_check (Z.to_nat 146097) 0 = true.
Proof. vm_compute. reflexivity. Qed.

Lemma cycle_check_sound fuel :
  forall r, cycle_check fuel r = true ->
  forall i, r <= i < r + Z.of_nat fuel -> cycle_ok i = true.
Proof.
  induction fuel as [|fuel IH]; intros r H i Hi; [lia|].
  cbn [cycle_check] in H. destruct (cycle_ok r) eqn:E; [|discriminate].
  destruct (Z.eq_dec i r) as [->|Hne]; [exact E|].
  apply (IH (r + 1) H). lia.
Qed.

(** [ord2ymd] repeats every 146097 days, 400 years later. *)
Lemma ord2ymd_cycle n :
  ord2ymd n
  = let '(y, m, d) := ord2ymd ((n - 1) mod 146097 + 1) in
    (y + (n - 1) / 146097 * 400, m, d).
Proof.
  unfold ord2ymd. cbv zeta.
  replace ((n - 1) mod 146097 + 1 - 1) with ((n - 1) mod 146097) by lia.
  rewrite Z.mod_mod by lia.
  rewrite (Z.div_small ((n - 1) mod 146097) 146097)
    by (apply Z.mod_pos_bound; lia).
  set (r := (n - 1) mod 146097).
  set (q := (n - 1) / 146097).
  destruct ((r mod 36524 mod 1461 / 365 =? 4) || (r / 36524 =? 4)).
  - f_equal. f_equal. lia.
  - match goal with |- context [if ?b then _ else _] => destruct b end;
      f_equal; f_equal; lia.
Qed.

Lemma cycle_ok_spec r :
  0 <= r < 146097 ->
  exists y m d,
    ord2ymd (r + 1) = (y, m, d)
    /\ 1 <= y <= 400 /\ 1 <= m <= 12 /\ 1 <= d <= 31
    /\ (r <= 145730 -> y <= 399)
    /\ ymd2ord y m d = r + 1.
Proof.
  intros Hr.
  pose proof (cycle_check_sound _ _ cycle_checked r) as H.
  rewrite Z2Nat.id in H by lia. specialize (H ltac:(lia)).
  unfold cycle_ok in H. destruct (ord2ymd (r + 1)) as [[y m] d].
  exists y, m, d.
  repeat (apply andb_true_iff in H; destruct H as [H ?]).
  repeat match goal with
         | H : (_ <=? _) = true |- _ => apply Z.leb_le in H
         | H : (_ =? _) = true |- _ => apply Z.eqb_eq in H
         end.
  repeat split; lia.
Qed.

Lemma ord2ymd_range n :
  1 <= n <= MAXORDINAL ->
  exists y m d,
    ord2ymd n = (y, m, d)
    /\ 1 <= y <= 9999 /\ 1 <= m <= 12 /\ 1 <= d <= 31.
Proof.
  unfold MAXORDINAL. intros Hn. rewrite ord2ymd_cycle.
  destruct (cycle_ok_spec ((n - 1) mod 146097))
    as [y [m [d [E [Hy [Hm [Hd [Hlast _]]]]]]]];
    [apply Z.mod_pos_bound; lia|].
  rewrite E. exists (y + (n - 1) / 146097 * 400), m, d.
  split; [reflexivity|]. split; [|auto].
  revert Hlast. Z.div_mod_to_equations. lia.
Qed.

Lemma cycle_ok_day r y m d :
  0 <= r < 146097 -> ord2ymd (r + 1) = (y, m, d) -> d <= days_in_month y m.
Proof.
  intros Hr E.
  pose proof (cycle_check_sound _ _ cycle_checked r) as H.
  rewrite Z2Nat.id in H by lia. specialize (H ltac:(lia)).
  unfold cycle_ok in H. rewrite E in H.
  repeat (apply andb_true_iff in H; destruct H as [H ?]).
  match goal with
  | H : (d <=? days_in_month y m) = true |- _ => apply Z.leb_le in H; exact H
  end.
Qed.

Lemma is_leap_cycle y q : is_leap (y + q * 400) = is_leap y.
Proof.
  unfold is_leap.
  replace ((y + q * 400) mod 4) with (y mod 4)
    by (Z.div_mod_to_equations; lia).
  replace ((y + q * 400) mod 100) with (y mod 100)
    by (Z.div_mod_to_equations; lia).
  replace ((y + q * 400) mod 400) with (y mod 400)
    by (Z.div_mod_to_equations; lia).
  reflexivity.
Qed.

Lemma ymd2ord_cycle y m d q :
  ymd2ord (y + q * 400) m d = ymd2ord y m d + q * 146097.
Proof.
  unfold ymd2ord, days_before_month. rewrite is_leap_cycle.
  unfold days_before_year. cbv zeta.
  Z.div_mod_to_equations. lia.
Qed.

(** [ymd2ord] maps the date of a day back to the day, and the date is a
    day of its month. *)
Lemma ymd2ord_ord2ymd n y m d :
  1 <= n -> ord2ymd n = (y, m, d) ->
  ymd2ord y m d = n /\ d <= days_in_month y m.
Proof.
  intros Hn. rewrite ord2ymd_cycle.
  assert (Hr : 0 <= (n - 1) mod 146097 < 146097)
    by (apply Z.mod_pos_bound; lia).
  destruct (cycle_ok_spec ((n - 1) mod 146097) Hr)
    as [y0 [m0 [d0 [E [_ [_ [_ [_ Hi]]]]]]]].
  pose proof (cycle_ok_day _ _ _ _ Hr E) as Hday.
  rewrite E. intros [= <- <- <-]. split.
  - rewrite ymd2ord_cycle, Hi.
    pose proof (Z.div_mod (n - 1) 146097 ltac:(lia)). lia.
  - unfold days_in_month in *. rewrite is_leap_cycle. exact Hday.
Qed.

Lemma ord2ymd_inj n1 n2 :
  1 <= n1 -> 1 <= n2 -> ord2ymd n1 = ord2ymd n2 -> n1 = n2.
Proof.
  intros H1 H2. rewrite (ord2ymd_cycle n1), (ord2ymd_cycle n2).
  destruct (cycle_ok_spec ((n1 - 1) mod 146097))
    as [y1 [m1 [d1 [E1 [Hy1 [_ [_ [_ Hi1]]]]]]]];
    [apply Z.mod_pos_bound; lia|].
  destruct (cycle_ok_spec ((n2 - 1) mod 146097))
    as [y2 [m2 [d2 [E2 [Hy2 [_ [_ [_ Hi2]]]]]]]];
    [apply Z.mod_pos_bound; lia|].
  rewrite E1, E2. intros [= Hy <- <-].
  assert (Hq : (n1 - 1) / 146097 = (n2 - 1) / 146097) by lia.
  assert (y1 = y2) by lia. subst y2.
  assert (Hr : (n1 - 1) mod 146097 = (n2 - 1) mod 146097) by lia.
  pose proof (Z.div_mod (n1 - 1) 146097 ltac:(lia)).
  pose proof (Z.div_mod (n2 - 1) 146097 ltac:(lia)).
  lia.
Qed.

Lemma digit_inj a b : digit a = digit b -> a mod 10 = b mod 10.
Proof.
  unfold digit. intros H. apply (f_equal nat_of_ascii) in H.
  pose proof (Z.mod_pos_bound a 10 ltac:(lia)).
  pose proof (Z.mod_pos_bound b 10 ltac:(lia)).
  rewrite !nat_ascii_embedding in H by lia. lia.
Qed.

Lemma two_digits_inj a b :
  0 <= a < 100 -> 0 <= b < 100 ->
  digit (a / 10) = digit (b / 10) -> digit a = digit b -> a = b.
Proof.
  intros Ha Hb H1 H2. apply digit_inj in H1, H2.
  revert H1 H2. Z.div_mod_to_equations. lia.
Qed.

Lemma four_digits_inj a b :
  0 <= a < 10000 -> 0 <= b < 10000 ->
  digit (a / 1000) = digit (b / 1000) -> digit (a / 100) = digit (b / 100) ->
  digit (a / 10) = digit (b / 10) -> digit a = digit b -> a = b.
Proof.
  intros Ha Hb H1 H2 H3 H4. apply digit_inj in H1, H2, H3, H4.
  revert H1 H2 H3 H4. Z.div_mod_to_equations. lia.
Qed.

Lemma time_fields t :
  0 <= t ->
  0 <= hour_of t < 24 /\ 0 <= minute_of t < 60 /\ 0 <= second_of t < 60
  /\ t = (ordinal_of t - 1) * us_per_day + hour_of t * 3600000000
        + minute_of t * 60000000 + second_of t * 1000000 + t mod 1000000.
Proof.
  intros Ht. unfold hour_of, minute_of, second_of, ordinal_of, us_per_day.
  Z.div_mod_to_equations. lia.
Qed.

(** On valid instants with whole seconds, the formatted instant
    determines the instant, also when an extension follows it. *)
Lemma strftime_append_inj t1 t2 e1 e2 :
  valid t1 -> valid t2 -> t1 mod 1000000 = 0 -> t2 mod 1000000 = 0 ->
  (strftime t1 ++ e1)%string = (strftime t2 ++ e2)%string ->
  t1 = t2 /\ e1 = e2.
Proof.
  unfold valid. intros V1 V2 W1 W2 H.
  assert (O1 : 1 <= ordinal_of t1 <= MAXORDINAL).
  { unfold ordinal_of, datetime_max, us_per_day, MAXORDINAL in *.
    Z.div_mod_to_equations. lia. }
  assert (O2 : 1 <= ordinal_of t2 <= MAXORDINAL).
  { unfold ordinal_of, datetime_max, us_per_day, MAXORDINAL in *.
    Z.div_mod_to_equations. lia. }
  destruct (time_fields t1 ltac:(lia)) as [Hh1 [Hm1 [Hs1 Ht1]]].
  destruct (time_fields t2 ltac:(lia)) as [Hh2 [Hm2 [Hs2 Ht2]]].
  unfold strftime in H.
  destruct (ord2ymd_range _ O1) as [y1 [m1 [d1 [E1 [Ry1 [Rm1 Rd1]]]]]].
  destruct (ord2ymd_range _ O2) as [y2 [m2 [d2 [E2 [Ry2 [Rm2 Rd2]]]]]].
  rewrite E1, E2 in H. unfold digits4, digits2 in H. cbn [append] in H.
  injection H as Hy1 Hy2 Hy3 Hy4 Hmo1 Hmo2 Hd1 Hd2 Hh1' Hh2' Hmi1 Hmi2
    Hs1' Hs2' He.
  assert (y1 = y2) by (apply four_digits_inj; auto; lia).
  assert (m1 = m2) by (apply two_digits_inj; auto; lia).
  assert (d1 = d2) by (apply two_digits_inj; auto; lia).
  assert (Hh : hour_of t1 = hour_of t2) by (apply two_digits_inj; auto; lia).
  assert (Hm : minute_of t1 = minute_of t2)
    by (apply two_digits_inj; auto; lia).
  assert (Hs : second_of t1 = second_of t2)
    by (apply two_digits_inj; auto; lia).
  subst y2 m2 d2.
  assert (Ho : ordinal_of t1 = ordinal_of t2)
    by (apply ord2ymd_inj; try lia; congruence).
  split; [|exact He].
  rewrite Ht1, Ht2, Ho, Hh, Hm, Hs, W1, W2. reflexivity.
Qed.

(** The formatted instant shows the fields of the [datetime]: the date
    and the time of day from which the constructor gives the instant
    back. *)
Lemma strftime_fields t :
  valid t ->
  exists y mo d,
    1 <= y <= 9999 /\ 1 <= mo <= 12 /\ 1 <= d <= days_in_month y mo
    /\ 0 <= hour_of t < 24 /\ 0 <= minute_of t < 60 /\ 0 <= second_of t < 60
    /\ t = make y mo d (hour_of t) (minute_of t) (second_of t)
             (microsecond_of t)
    /\ strftime t
       = (digits4 y ++ "-" ++ digits2 mo ++ "-" ++ digits2 d ++ " "
          ++ digits2 (hour_of t) ++ ":" ++ digits2 (minute_of t) ++ ":"
          ++ digits2 (second_of t))%string.
Proof.
  unfold valid. intros V.
  assert (O : 1 <= ordinal_of t <= MAXORDINAL).
  { unfold ordinal_of, datetime_max, us_per_day, MAXORDINAL in *.
    Z.div_mod_to_equations. lia. }
  destruct (ord2ymd_range _ O) as [y [mo [d [E [Ry [Rm Rd]]]]]].
  destruct (time_fields t ltac:(lia)) as [Hh [Hm [Hs Ht]]].
  destruct (ymd2ord_ord2ymd _ _ _ _ (proj1 O) E) as [Hord Hday].
  exists y, mo, d.
  split; [exact Ry|]. split; [exact Rm|]. split; [lia|].
  split; [exact Hh|]. split; [exact Hm|]. split; [exact Hs|]. split.
  - unfold make. rewrite Hord.
    unfold microsecond_of. unfold us_per_day in Ht. lia.
  - unfold strftime. rewrite E. reflexivity.
Qed.

(** The target name is the directory of the file joined with the
    formatted instant and the extension of the file. *)
Lemma renamed_file_name_parts `{PathLib} file t :
  renamed_file_name file t
  = join (dir_name_of file) (strftime t ++ extension_of file)%string.
Proof.
  unfold renamed_file_name, dir_name_of, extension_of.
  destruct (split file) as [head tail]. reflexivity.
Qed.

(** ** Plan domain *)

(** C10. The files of the plan are exactly the keys of the input mapping:
    each input file has one entry, none is dropped and none is invented. *)
Theorem plan_domain_preserved `{PathLib} (m : file_to_time_map) (p : plan) :
  is_dict m ->
  calculate_renamings m = Ok p ->
  is_dict p
  /\ (forall file, In file (dict_keys p) <-> In file (dict_keys m))
  /\ length p = length m.
Proof.
  intros Hm Hp.
  destruct (calculate_renamings_spec m p Hm Hp) as [r [_ [Hpl [_ ->]]]].
  assert (Hkeys : dict_keys (map plan_entry r) = map fst (sorted m)).
  { unfold dict_keys. rewrite map_map. simpl.
    apply (Forall2_placed_files _ _ Hpl). }
  repeat split.
  - unfold is_dict. rewrite Hkeys. apply sorted_files_NoDup. exact Hm.
  - rewrite Hkeys. apply Permutation_in, Permutation_map, sorted_perm.
  - rewrite Hkeys. apply Permutation_in, Permutation_map.
    symmetry. apply sorted_perm.
  - rewrite length_map, <- (Forall2_length Hpl).
    apply Permutation_length, sorted_perm.
Qed.

Lemma plan_domain_preserved_witness :
  let m := [("b.jpg", make 2020 1 1 10 0 0 0);
            ("a.jpg", make 2020 1 1 10 0 0 0);
            ("c.jpg", make 2019 5 5 8 30 0 0)]%string in
  exists p,
    calculate_renamings (H := Posix.host) m = Ok p
    /\ is_dict p
    /\ (forall file, In file (dict_keys p) <-> In file (dict_keys m))
    /\ length p = length m.
Proof.
  intros m. eexists. split; [vm_compute; reflexivity|].
  apply (plan_domain_preserved (H := Posix.host) m).
  - distinct_keys.
  - vm_compute. reflexivity.
Defined.

(** ** Forward-only displacement *)

(** C5. Every entry of the plan names its file after an assigned instant
    that is the file's own capture instant or later; the flag is true
    exactly when the two differ, and then the assigned instant is strictly
    later. *)
Theorem forward_only_displacement `{PathLib} (m : file_to_time_map)
  (p : plan) (file name : string) (flag : bool) :
  is_dict m ->
  calculate_renamings m = Ok p ->
  In (file, (name, flag)) p ->
  exists original assigned r,
    assign (sorted m) [] = Ok r
    /\ In (assigned, (file, flag)) r
    /\ In (file, original) m
    /\ name = renamed_file_name file assigned
    /\ (flag = true <-> assigned <> original)
    /\ (flag = true -> original < assigned).
Proof.
  intros Hm Hp Hin.
  destruct (calculate_renamings_spec m p Hm Hp) as [r [Hr [Hpl [_ ->]]]].
  apply in_map_iff in Hin. destruct Hin as [[t [f fl]] [Heq Hq]].
  unfold plan_entry, file_of in Heq. simpl in Heq.
  injection Heq as -> <- ->.
  destruct (Forall2_placed_In _ _ _ Hpl Hq) as [[f0 t0] [Hp0 Hplaced]].
  destruct Hplaced as [Hf [[k Hk] Hfl]]. simpl in Hf, Hk, Hfl. subst f0.
  exists t0, t, r. repeat split; try assumption.
  - apply (Permutation_in _ (sorted_perm m)). exact Hp0.
  - intros ->. symmetry in Hfl. apply negb_true_iff in Hfl.
    apply Z.eqb_neq. exact Hfl.
  - intros Hne. rewrite Hfl. apply negb_true_iff. apply Z.eqb_neq. exact Hne.
  - intros ->. symmetry in Hfl. apply negb_true_iff, Z.eqb_neq in Hfl.
    pose proof (later_le t0 k). lia.
Qed.

Lemma forward_only_displacement_witness :
  let t := make 2020 1 1 10 0 0 0 in
  let m := [("a.jpg", t); ("b.jpg", t)]%string in
  exists original assigned r,
    assign (sorted m) [] = Ok r
    /\ In (assigned, ("b.jpg"%string, true)) r
    /\ In ("b.jpg"%string, original) m
    /\ "2020-01-01 10:00:01.jpg"%string
       = renamed_file_name (H := Posix.host) "b.jpg" assigned
    /\ (true = true <-> assigned <> original)
    /\ (true = true -> original < assigned).
Proof.
  intros t m.
  apply (forward_only_displacement (H := Posix.host) m
           [("a.jpg", ("2020-01-01 10:00:00.jpg", false));
            ("b.jpg", ("2020-01-01 10:00:01.jpg", true))]%string).
  - distinct_keys.
  - vm_compute. reflexivity.
  - simpl. right. left. reflexivity.
Defined.

(** ** No-collision passthrough *)

(** C6. When the capture instants are pairwise distinct the planner
    returns a plan, every entry has its flag false, and every target name
    is the directory of the file joined with the formatting of the file's
    own capture instant followed by the file's extension.  The formatting
    of a valid instant is [YYYY-MM-DD HH:MM:SS], the digits of its date
    and of its time of day (the year in four digits, from the year 1000
    on every host). *)
Theorem no_collision_passthrough `{PathLib} (m : file_to_time_map) :
  is_dict m ->
  NoDup (map snd m) ->
  calculate_renamings m
  = Ok (map (fun e => (fst e, (renamed_file_name (fst e) (snd e), false)))
          (sorted m))
  /\ forall p file name flag,
      calculate_renamings m = Ok p ->
      In (file, (name, flag)) p ->
      flag = false
      /\ exists original,
          In (file, original) m
          /\ name = renamed_file_name file original
          /\ name = join (dir_name_of file)
                      (strftime original ++ extension_of file)%string
          /\ (valid original ->
              exists y mo d,
                1 <= y <= 9999 /\ 1 <= mo <= 12
                /\ 1 <= d <= days_in_month y mo
                /\ 0 <= hour_of original < 24
                /\ 0 <= minute_of original < 60
                /\ 0 <= second_of original < 60
                /\ original
                   = make y mo d (hour_of original) (minute_of original)
                       (second_of original) (microsecond_of original)
                /\ (1000 <= y ->
                    strftime original
                    = (digits4 y ++ "-" ++ digits2 mo ++ "-" ++ digits2 d
                       ++ " " ++ digits2 (hour_of original)
                       ++ ":" ++ digits2 (minute_of original)
                       ++ ":" ++ digits2 (second_of original))%string)).
Proof.
  intros Hm Hnd.
  assert (Hcalc : calculate_renamings m
    = Ok (map (fun e => (fst e, (renamed_file_name (fst e) (snd e), false)))
            (sorted m))).
  { unfold calculate_renamings.
    rewrite assign_distinct.
    - simpl. rewrite build_result_spec.
      + simpl. rewrite map_map. reflexivity.
      + simpl. rewrite map_map. simpl. apply sorted_files_NoDup. exact Hm.
    - eapply Permutation_NoDup; [|exact Hnd].
      apply Permutation_map. symmetry. apply sorted_perm.
    - intros t _ []. }
  split; [exact Hcalc|].
  intros p file name flag Hp Hin. rewrite Hcalc in Hp. injection Hp as <-.
  apply in_map_iff in Hin. destruct Hin as [[f t] [Heq Hq]].
  simpl in Heq. injection Heq as -> <- <-.
  split; [reflexivity|]. exists t.
  split; [apply (Permutation_in _ (sorted_perm m)); exact Hq|].
  split; [reflexivity|].
  split; [apply renamed_file_name_parts|].
  intros V.
  destruct (strftime_fields t V)
    as [y [mo [d [Ry [Rm [Rd [Hh [Hmi [Hs [Hmake Hfmt]]]]]]]]]].
  exists y, mo, d. repeat (split; [assumption|]). intros _. exact Hfmt.
Qed.

Lemma no_collision_passthrough_witness :
  let m := [("/v/b.mp4", make 2019 5 5 8 30 0 0);
            ("/v/a.MP4", make 2019 5 5 8 29 59 0)]%string in
  calculate_renamings (H := Posix.host) m
  = Ok [("/v/a.MP4", ("/v/2019-05-05 08:29:59.MP4", false));
        ("/v/b.mp4", ("/v/2019-05-05 08:30:00.mp4", false))]%string
  /\ forall p file name flag,
      calculate_renamings (H := Posix.host) m = Ok p ->
      In (file, (name, flag)) p ->
      flag = false
      /\ exists original,
          In (file, original) m
          /\ name = renamed_file_name (H := Posix.host) file original
          /\ name = join (PathLib := Posix.host)
                      (dir_name_of (H := Posix.host) file)
                      (strftime original
                       ++ extension_of (H := Posix.host) file)%string
          /\ (valid original ->
              exists y mo d,
                1 <= y <= 9999 /\ 1 <= mo <= 12
                /\ 1 <= d <= days_in_month y mo
                /\ 0 <= hour_of original < 24
                /\ 0 <= minute_of original < 60
                /\ 0 <= second_of original < 60
                /\ original
                   = make y mo d (hour_of original) (minute_of original)
                       (second_of original) (microsecond_of original)
                /\ (1000 <= y ->
                    strftime original
                    = (digits4 y ++ "-" ++ digits2 mo ++ "-" ++ digits2 d
                       ++ " " ++ digits2 (hour_of original)
                       ++ ":" ++ digits2 (minute_of original)
                       ++ ":" ++ digits2 (second_of original))%string)).
Proof.
  intros m.
  destruct (no_collision_passthrough (H := Posix.host) m) as [Hplan Hnames].
  - distinct_keys.
  - vm_compute. repeat (constructor; [simpl; intuition discriminate|]).
    constructor.
  - split; [|exact Hnames]. rewrite Hplan. vm_compute. reflexivity.
Defined.

(** ** Uniqueness of target names *)

(** C1. The loop keeps the assigned instants distinct, but it compares
    them to the microsecond while the target name keeps whole seconds
    only: two videos created within the same second get the same target
    name, and neither is flagged. *)
Theorem subsecond_instants_share_a_target_name :
  let m := [("/d/a.mp4", make 2020 1 1 10 0 0 100000);
            ("/d/b.mp4", make 2020 1 1 10 0 0 200000)]%string in
  is_dict m
  /\ Forall (fun e => valid (snd e)) m
  /\ calculate_renamings (H := Posix.host) m
     = Ok [("/d/a.mp4", ("/d/2020-01-01 10:00:00.mp4", false));
           ("/d/b.mp4", ("/d/2020-01-01 10:00:00.mp4", false))]%string.
Proof.
  intros m. split; [distinct_keys|]. split.
  - repeat constructor; vm_compute; discriminate.
  - vm_compute. reflexivity.
Qed.

(** ** Order of the input *)

Lemma at_time_perm t l1 l2 :
  Permutation l1 l2 -> Permutation (at_time t l1) (at_time t l2).
Proof.
  unfold at_time.
  induction 1 as [|x l1 l2 _ IH|x y l|l1 l2 l3 _ IH1 _ IH2]; simpl.
  - constructor.
  - destruct (snd x =? t); [constructor|]; exact IH.
  - destruct (snd x =? t), (snd y =? t); try reflexivity. apply perm_swap.
  - etransitivity; eauto.
Qed.

Lemma at_time_distinct t l :
  NoDup (map snd l) -> (length (at_time t l) <= 1)%nat.
Proof.
  unfold at_time. induction l as [|p l IH]; simpl; intros Hnd; [lia|].
  inversion Hnd as [|? ? Hp Hnd']; subst. specialize (IH Hnd').
  destruct (snd p =? t) eqn:E; [|exact IH].
  apply Z.eqb_eq in E. simpl.
  destruct (filter (fun q => snd q =? t) l) as [|q l'] eqn:F; [simpl; lia|].
  exfalso. apply Hp.
  assert (Hq : In q (filter (fun q => snd q =? t) l)) by (rewrite F; left; auto).
  apply filter_In in Hq. destruct Hq as [Hq Et]. apply Z.eqb_eq in Et.
  apply in_map_iff. exists q. split; [lia | exact Hq].
Qed.

(** With pairwise distinct instants there are no ties to order. *)
Lemma distinct_instants_no_ties m1 m2 :
  Permutation m1 m2 -> NoDup (map snd m1) ->
  forall t, at_time t m1 = at_time t m2.
Proof.
  intros Hp Hnd t.
  pose proof (at_time_distinct t m1 Hnd) as Hlen.
  pose proof (at_time_perm t _ _ Hp) as Hpt.
  destruct (at_time t m1) as [|x [|y l]]; simpl in Hlen; try lia.
  - apply Permutation_nil in Hpt. congruence.
  - apply Permutation_length_1_inv in Hpt. congruence.
Qed.

Lemma calculate_renamings_tie_order `{PathLib} (m1 m2 : file_to_time_map) :
  (forall t, at_time t m1 = at_time t m2) ->
  calculate_renamings m1 = calculate_renamings m2.
Proof.
  intros Hties. unfold calculate_renamings.
  rewrite (sorted_tie_order m1 m2 Hties). reflexivity.
Qed.

(** The plan does not depend on the enumeration when the instants are
    pairwise distinct. *)
Lemma calculate_renamings_distinct_instants `{PathLib}
  (m1 m2 : file_to_time_map) :
  Permutation m1 m2 -> NoDup (map snd m1) ->
  calculate_renamings m1 = calculate_renamings m2.
Proof.
  intros Hp Hnd. apply calculate_renamings_tie_order.
  apply distinct_instants_no_ties; assumption.
Qed.

(** ** The timestamp resolver *)

Section ResolverFacts.

Variable timestamp : Type.
Variable fromtimestamp : timestamp -> result datetime.
Variable strptime : string -> result datetime.
Context {S : PyStr}.

(** Each file of an extraction loop ends up in the map with the instant
    its resolver returned. *)
Lemma extract_get (resolve : string -> result datetime) files :
  forall acc m,
    extract resolve files acc = Ok m ->
    forall file t,
      resolve file = Ok t ->
      In file files \/ dict_get String.eqb file acc = Some t ->
      dict_get String.eqb file m = Some t.
Proof.
  induction files as [|f files IH]; intros acc m Hm file t Ht Hin;
    simpl in Hm.
  - injection Hm as <-. destruct Hin as [[]|Hin]. exact Hin.
  - destruct (resolve f) as [tf|e] eqn:Ef; [|discriminate]. simpl in Hm.
    apply (IH _ _ Hm file t Ht).
    destruct (String.eqb_spec file f) as [->|Hne].
    + right. rewrite Ef in Ht. injection Ht as ->.
      apply dict_get_set_same, String.eqb_eq.
    + destruct Hin as [[Heq|Hin]|Hget].
      * congruence.
      * left. exact Hin.
      * right. rewrite dict_get_set_other; auto using String.eqb_eq.
Qed.

Lemma extract_resolved (resolve : string -> result datetime) files :
  forall acc m,
    extract resolve files acc = Ok m ->
    forall file, In file files -> exists t, resolve file = Ok t.
Proof.
  induction files as [|f files IH]; intros acc m Hm file Hin; simpl in Hm.
  - contradiction.
  - destruct (resolve f) as [tf|e] eqn:Ef; [|discriminate]. simpl in Hm.
    destruct Hin as [<-|Hin]; eauto.
Qed.

(** C3. When the capture-time field is present and does not parse, the
    resolver raises the parser's error; with the field present the result
    is the same on every host that reads the same tags, whatever its
    filesystem times; and the resolver turns to the filesystem only when
    [exif_creation_time] returns [None], which happens exactly when the
    field is absent. *)
Theorem malformed_timestamp_is_fatal (w : host timestamp) (file : string)
  (tags : dict string string) :
  process_file w file = Ok tags ->
  (forall date_time e,
      dict_get String.eqb EXIF_DATE_TIME_ORIGINAL tags = Some date_time ->
      strptime date_time = Raise e ->
      exif_time_else_creation_time fromtimestamp strptime w file = Raise e)
  /\ (forall date_time (fromtimestamp' : timestamp -> result datetime)
        (w' : host timestamp),
        dict_get String.eqb EXIF_DATE_TIME_ORIGINAL tags = Some date_time ->
        process_file w' file = Ok tags ->
        exif_time_else_creation_time fromtimestamp' strptime w' file
        = exif_time_else_creation_time fromtimestamp strptime w file)
  /\ (exif_creation_time strptime w file = Ok None
      <-> dict_get String.eqb EXIF_DATE_TIME_ORIGINAL tags = None).
Proof.
  intros Htags. unfold exif_time_else_creation_time, exif_creation_time.
  rewrite Htags. simpl. split; [|split].
  - intros date_time e -> ->. reflexivity.
  - intros date_time ft' w' Hget Hw'. rewrite Hw'. simpl. rewrite Hget.
    destruct (strptime date_time); reflexivity.
  - destruct (dict_get String.eqb EXIF_DATE_TIME_ORIGINAL tags) as [s|].
    + destruct (strptime s); simpl; split; discriminate.
    + split; reflexivity.
Qed.

(** C8. When the capture-time field is present and parses, the resolver
    returns the parsed instant, whatever the filesystem says; and this is
    the instant [main] records for the image. *)
Theorem embedded_time_takes_precedence (w : host timestamp) (file : string)
  (tags : dict string string) (date_time : string) (t : datetime) :
  process_file w file = Ok tags ->
  dict_get String.eqb EXIF_DATE_TIME_ORIGINAL tags = Some date_time ->
  strptime date_time = Ok t ->
  exif_time_else_creation_time fromtimestamp strptime w file = Ok t
  /\ forall files m,
      In file files -> is_image file = true ->
      images_info_map fromtimestamp strptime w files = Ok m ->
      dict_get String.eqb file m = Some t.
Proof.
  intros Htags Hget Hparse.
  assert (Hres : exif_time_else_creation_time fromtimestamp strptime w file
                 = Ok t).
  { unfold exif_time_else_creation_time, exif_creation_time.
    rewrite Htags. simpl. rewrite Hget, Hparse. reflexivity. }
  split; [exact Hres|].
  intros files m Hin Himg Hm. unfold images_info_map in Hm.
  eapply extract_get; [exact Hm | exact Hres |].
  left. apply filter_In. auto.
Qed.

(** C4, as the code has it.  When the field is absent the resolver returns
    what [creation_time] returns; [creation_time] converts the creation
    time on Windows and elsewhere the birth time, or the last-modified
    time where the host has no birth time; and a video is recorded with
    what [creation_time] returns. *)
Theorem fallback_to_filesystem_time (w : host timestamp) (file : string) :
  (forall tags,
      process_file w file = Ok tags ->
      dict_get String.eqb EXIF_DATE_TIME_ORIGINAL tags = None ->
      exif_time_else_creation_time fromtimestamp strptime w file
      = creation_time fromtimestamp w file)
  /\ (forall ctime,
        system w = "Windows"%string -> getctime w file = Ok ctime ->
        creation_time fromtimestamp w file = fromtimestamp ctime)
  /\ (forall stats,
        system w <> "Windows"%string -> stat w file = Ok stats ->
        creation_time fromtimestamp w file
        = fromtimestamp match st_birthtime stats with
                        | Some birthtime => birthtime
                        | None => st_mtime stats
                        end)
  /\ (forall files m,
        In file files -> is_video file = true ->
        video_files_map fromtimestamp w files = Ok m ->
        exists t,
          creation_time fromtimestamp w file = Ok t
          /\ dict_get String.eqb file m = Some t).
Proof.
  repeat split.
  - intros tags Htags Hget.
    unfold exif_time_else_creation_time, exif_creation_time.
    rewrite Htags. simpl. rewrite Hget. reflexivity.
  - intros ctime Hsys Hc. unfold creation_time.
    rewrite Hsys, String.eqb_refl, Hc. reflexivity.
  - intros stats Hsys Hst. unfold creation_time.
    apply String.eqb_neq in Hsys. rewrite Hsys, Hst. simpl.
    destruct (st_birthtime stats); reflexivity.
  - intros files m Hin Hvid Hm. unfold video_files_map in Hm.
    assert (Hf : In file (filter is_video files)) by (apply filter_In; auto).
    destruct (extract_resolved _ _ _ _ Hm file Hf) as [t Ht].
    exists t. split; [exact Ht|].
    eapply extract_get; [exact Hm | exact Ht | left; exact Hf].
Qed.

End ResolverFacts.

Lemma malformed_timestamp_is_fatal_witness :
  let w := Reference.unix_host (Some "0000:00:00 00:00:00"%string)
             (Some (Reference.timestamp_of (make 2019 5 5 8 30 0 0)))
             (Reference.timestamp_of (make 2019 6 1 12 0 0 0)) in
  exif_time_else_creation_time Reference.fromtimestamp Reference.strptime
    w "/d/a.jpg" = Raise ValueError.
Proof.
  intros w.
  apply (proj1 (malformed_timestamp_is_fatal Z Reference.fromtimestamp
                  Reference.strptime w "/d/a.jpg" _ eq_refl)
           "0000:00:00 00:00:00"%string ValueError).
  - vm_compute. reflexivity.
  - vm_compute. reflexivity.
Defined.

Lemma embedded_time_takes_precedence_witness :
  let w := Reference.unix_host (Some "2020:01:01 10:00:00"%string)
             (Some (Reference.timestamp_of (make 2019 5 5 8 30 0 0)))
             (Reference.timestamp_of (make 2019 6 1 12 0 0 0)) in
  creation_time Reference.fromtimestamp w "/d/a.jpg"
  = Ok (make 2019 5 5 8 30 0 0)
  /\ exif_time_else_creation_time Reference.fromtimestamp Reference.strptime
       w "/d/a.jpg" = Ok (make 2020 1 1 10 0 0 0).
Proof.
  intros w. split; [vm_compute; reflexivity|].
  apply (embedded_time_takes_precedence Z Reference.fromtimestamp
           Reference.strptime (S := AsciiText.fold) w "/d/a.jpg" _ "2020:01:01 10:00:00"%string
           (make 2020 1 1 10 0 0 0) eq_refl).
  - vm_compute. reflexivity.
  - vm_compute. reflexivity.
Defined.

Lemma fallback_to_filesystem_time_witness :
  let w := Reference.unix_host None None
             (Reference.timestamp_of (make 2019 5 5 8 30 0 0)) in
  exif_time_else_creation_time Reference.fromtimestamp Reference.strptime
    w "/d/a.jpg" = Ok (make 2019 5 5 8 30 0 0)
  /\ exists t,
      creation_time Reference.fromtimestamp w "/d/clip.mp4" = Ok t
      /\ dict_get String.eqb "/d/clip.mp4"%string
           [("/d/clip.mp4"%string, make 2019 5 5 8 30 0 0)] = Some t.
Proof.
  intros w. split.
  - rewrite (proj1 (fallback_to_filesystem_time Z Reference.fromtimestamp
                      Reference.strptime (S := AsciiText.fold) w "/d/a.jpg")
               _ eq_refl eq_refl).
    vm_compute. reflexivity.
  - apply (proj2 (proj2 (proj2
             (fallback_to_filesystem_time Z Reference.fromtimestamp
                Reference.strptime (S := AsciiText.fold) w "/d/clip.mp4")))
             ["/d/a.jpg"; "/d/clip.mp4"; "/d/notes.txt"]%string).
    + simpl. auto.
    + vm_compute. reflexivity.
    + vm_compute. reflexivity.
Defined.

(** C4, as stated, fails for a field that does not parse: the resolver
    raises [ValueError] although the filesystem has a creation time. *)
Lemma parse_failure_does_not_fall_back :
  let w := Reference.unix_host (Some "0000:00:00 00:00:00"%string)
             (Some (Reference.timestamp_of (make 2019 5 5 8 30 0 0)))
             (Reference.timestamp_of (make 2019 6 1 12 0 0 0)) in
  is_image (S := AsciiText.fold) "/d/a.jpg" = true
  /\ Reference.strptime "0000:00:00 00:00:00" = Raise ValueError
  /\ creation_time Reference.fromtimestamp w "/d/a.jpg"
     = Ok (make 2019 5 5 8 30 0 0)
  /\ exif_time_else_creation_time Reference.fromtimestamp Reference.strptime
       w "/d/a.jpg" = Raise ValueError
  /\ exif_time_else_creation_time Reference.fromtimestamp Reference.strptime
       w "/d/a.jpg" <> creation_time Reference.fromtimestamp w "/d/a.jpg".
Proof.
  intros w. repeat split; try (vm_compute; reflexivity).
  vm_compute. discriminate.
Qed.

(** ** Files that share a capture instant *)

Lemma later_eqb t j : (later t j =? t) = Nat.eqb j 0.
Proof.
  unfold later. destruct j as [|j]; simpl Nat.eqb.
  - apply Z.eqb_eq. lia.
  - apply Z.eqb_neq. lia.
Qed.








(** * Further properties of the code *)

(** ** File classification *)

Lemma chars_append (a b : string) :
  Str.chars (a ++ b) = Str.chars a ++ Str.chars b.
Proof.
  unfold Str.chars. induction a as [|c a IH]; simpl; [reflexivity|].
  rewrite IH. reflexivity.
Qed.

Lemma of_chars_app (a b : list ascii) :
  Str.of_chars (a ++ b) = (Str.of_chars a ++ Str.of_chars b)%string.
Proof.
  unfold Str.of_chars. induction a as [|c a IH]; simpl; [reflexivity|].
  rewrite IH. reflexivity.
Qed.

Lemma prefix_of_chars (a b : list ascii) :
  String.prefix (Str.of_chars a) (Str.of_chars b) = true
  <-> exists c, b = a ++ c.
Proof.
  unfold Str.of_chars. revert b.
  induction a as [|x a IH]; intros b; simpl.
  - destruct b; simpl; split; eauto.
  - destruct b as [|y b]; simpl.
    + split; [discriminate | intros [c Hc]; discriminate].
    + destruct (ascii_dec x y) as [->|Hne].
      * rewrite IH. split; intros [c Hc]; exists c; congruence.
      * split; [discriminate | intros [c Hc]; congruence].
Qed.

(** [s.endswith(p)] holds exactly when [s] is some string followed
    by [p]. *)
Lemma endswith_iff (s p : string) :
  Str.endswith s p = true <-> exists q, s = (q ++ p)%string.
Proof.
  unfold Str.endswith. rewrite prefix_of_chars. split.
  - intros [c Hc]. exists (Str.of_chars (rev c)).
    apply (f_equal (@rev ascii)) in Hc.
    rewrite rev_involutive, rev_app_distr, rev_involutive in Hc.
    apply (f_equal Str.of_chars) in Hc. rewrite of_chars_app in Hc.
    unfold Str.of_chars, Str.chars in *.
    rewrite !string_of_list_ascii_of_string in Hc. exact Hc.
  - intros [q ->]. exists (rev (Str.chars q)).
    rewrite chars_append, rev_app_distr. reflexivity.
Qed.

Lemma lower_append (a b : string) :
  Str.lower (a ++ b) = (Str.lower a ++ Str.lower b)%string.
Proof.
  induction a as [|c a IH]; simpl; [reflexivity|]. rewrite IH. reflexivity.
Qed.

Lemma lower_split (s a b : string) :
  Str.lower s = (a ++ b)%string ->
  exists s1 s2, s = (s1 ++ s2)%string /\ Str.lower s1 = a /\ Str.lower s2 = b.
Proof.
  revert s. induction a as [|c a IH]; intros s Hs; simpl in Hs.
  - exists EmptyString, s. auto.
  - destruct s as [|x s]; simpl in Hs; [discriminate|].
    injection Hs as Hx Hs. destruct (IH s Hs) as [s1 [s2 [-> [H1 H2]]]].
    exists (String x s1), s2. simpl. repeat split; congruence.
Qed.

(** For a file name of ASCII characters, where [str.lower] folds the
    letters [A] to [Z] and nothing else: the file has one of the extensions
    exactly when it ends with a suffix whose lower-case form is in the
    list.  Only the file name is folded to lower case: an extension of the
    list that contains a capital letter matches nothing. *)
Theorem has_extension_iff {S : PyStr} (file : string)
  (extensions : list string) :
  (forall s, all_chars is_ascii s = true -> str_lower s = Str.lower s) ->
  all_chars is_ascii file = true ->
  has_extension file extensions = true
  <-> exists stem suffix,
      file = (stem ++ suffix)%string /\ In (Str.lower suffix) extensions.
Proof.
  intros Hlower Hfile.
  unfold has_extension. rewrite (Hlower file Hfile).
  rewrite existsb_exists. split.
  - intros [ext [Hin He]]. apply endswith_iff in He. destruct He as [q Hq].
    destruct (lower_split _ _ _ Hq) as [s1 [s2 [-> [_ H2]]]].
    exists s1, s2. split; [reflexivity|]. rewrite H2. exact Hin.
  - intros [stem [suffix [-> Hin]]]. exists (Str.lower suffix).
    split; [exact Hin|]. apply endswith_iff. exists (Str.lower stem).
    apply lower_append.
Qed.

Lemma has_extension_iff_witness :
  has_extension (S := AsciiText.fold) "/d/IMG_0001.JpG" image_extensions
  = true
  <-> exists stem suffix,
      "/d/IMG_0001.JpG"%string = (stem ++ suffix)%string
      /\ In (Str.lower suffix) image_extensions.
Proof.
  apply (has_extension_iff (S := AsciiText.fold)).
  - intros s _. reflexivity.
  - vm_compute. reflexivity.
Defined.

(** No file is both an image and a video, so [main] never plans a file in
    both batches. *)
Theorem image_is_not_video {S : PyStr} (file : string) :
  is_image file = true -> is_video file = false.
Proof.
  unfold is_image, is_video, has_extension, Str.endswith.
  destruct (Str.of_chars (rev (Str.chars (str_lower file)))) as [|c s];
    [discriminate|].
  cbn -[ascii_dec].
  destruct (ascii_dec "g" c) as [<-|Hg]; [reflexivity|].
  intros H. discriminate H.
Qed.

Lemma image_is_not_video_witness :
  is_video (S := AsciiText.fold) "/d/IMG_0001.JpG" = false.
Proof.
  apply (image_is_not_video (S := AsciiText.fold)). vm_compute. reflexivity.
Defined.

(** ** The extraction loops of [main] *)

Section DictSetFacts.

Context {K V : Type}.
Variable eqb : K -> K -> bool.
Hypothesis eqb_eq : forall a b, eqb a b = true <-> a = b.

Lemma dict_set_keys (k : K) (v : V) (d : dict K V) :
  dict_keys (dict_set eqb k v d)
  = if dict_contains eqb k d then dict_keys d else dict_keys d ++ [k].
Proof.
  unfold dict_keys, dict_contains.
  induction d as [|[k' v'] d IH]; simpl; [reflexivity|].
  destruct (eqb k k') eqn:E; simpl; [reflexivity|].
  rewrite IH. destruct (existsb _ d); reflexivity.
Qed.

Lemma dict_set_is_dict (k : K) (v : V) (d : dict K V) :
  is_dict d -> is_dict (dict_set eqb k v d).
Proof.
  unfold is_dict. intros Hd. rewrite dict_set_keys.
  destruct (dict_contains eqb k d) eqn:E; [exact Hd|].
  apply (dict_contains_false eqb eqb_eq) in E.
  apply NoDup_app; [exact Hd | repeat constructor; intros [] |].
  intros a Ha [<-|[]]. contradiction.
Qed.

Lemma dict_set_In (k k' : K) (v v' : V) (d : dict K V) :
  In (k', v') (dict_set eqb k v d) -> (k' = k /\ v' = v) \/ In (k', v') d.
Proof.
  induction d as [|[k0 v0] d IH]; simpl.
  - intros [[= <- <-]|[]]. auto.
  - destruct (eqb k k0) eqn:E; simpl.
    + apply eqb_eq in E. subst k0. intros [[= <- <-]|H]; auto.
    + intros [H|H]; auto. destruct (IH H); auto.
Qed.

End DictSetFacts.

Section ExtractFacts.

Variable resolve : string -> result datetime.

Lemma extract_spec files :
  forall acc m,
    extract resolve files acc = Ok m ->
    (is_dict acc -> is_dict m)
    /\ (forall f, In f (dict_keys m) <-> In f (dict_keys acc) \/ In f files)
    /\ ((forall f t, In (f, t) acc -> resolve f = Ok t) ->
        forall f t, In (f, t) m -> resolve f = Ok t).
Proof.
  induction files as [|file files IH]; intros acc m Hm; simpl in Hm.
  - injection Hm as <-. repeat split; auto.
    intros [H|[]]. exact H.
  - destruct (resolve file) as [t|e] eqn:E; [|discriminate]. simpl in Hm.
    destruct (IH _ _ Hm) as [Hd [Hk Hv]]. repeat split.
    + intros Hacc. apply Hd.
      apply dict_set_is_dict; [apply String.eqb_eq | exact Hacc].
    + intros Hf. apply Hk in Hf. destruct Hf as [Hf|Hf]; [|simpl; auto].
      rewrite (dict_set_keys String.eqb) in Hf.
      destruct (dict_contains String.eqb file acc); [auto|].
      apply in_app_or in Hf. destruct Hf as [Hf|[<-|[]]]; simpl; auto.
    + intros Hf. apply Hk. rewrite (dict_set_keys String.eqb).
      destruct (dict_contains String.eqb file acc) eqn:Ec.
      * destruct Hf as [Hf|[<-|Hf]]; auto.
        left. apply (dict_contains_keys String.eqb String.eqb_eq). exact Ec.
      * destruct Hf as [Hf|[<-|Hf]]; auto.
        -- left. apply in_or_app. auto.
        -- left. apply in_or_app. right. left. reflexivity.
    + intros Hacc. apply Hv. intros f' t' Hin.
      apply (dict_set_In String.eqb String.eqb_eq) in Hin.
      destruct Hin as [[-> ->]|Hin]; auto.
Qed.

(** The loop fails exactly when the resolver fails on some file; the
    error is that of the first such file, and nothing is returned for the
    files before it. *)
Theorem extract_raises_iff files acc e :
  extract resolve files acc = Raise e
  <-> exists before file after,
      files = before ++ file :: after
      /\ (forall f, In f before -> exists t, resolve f = Ok t)
      /\ resolve file = Raise e.
Proof.
  revert acc. induction files as [|file files IH]; intros acc; simpl.
  - split; [discriminate|].
    intros [before [f [after [H _]]]]. destruct before; discriminate.
  - destruct (resolve file) as [t|e'] eqn:E; simpl.
    + rewrite IH. split.
      * intros [before [f [after [-> [Hb Hf]]]]].
        exists (file :: before), f, after. repeat split; auto.
        intros g [<-|Hg]; eauto.
      * intros [before [f [after [Heq [Hb Hf]]]]].
        destruct before as [|b before]; simpl in Heq.
        -- injection Heq as <- <-. congruence.
        -- injection Heq as <- ->. exists before, f, after.
           repeat split; auto. intros g Hg. apply Hb. right. exact Hg.
    + split.
      * intros [= <-]. exists [], file, files. repeat split; auto.
        intros f [].
      * intros [before [f [after [Heq [Hb Hf]]]]].
        destruct before as [|b before]; simpl in Heq.
        -- injection Heq as <- <-. congruence.
        -- injection Heq as <- ->.
           destruct (Hb file (or_introl eq_refl)) as [t Ht]. congruence.
Qed.

End ExtractFacts.

Lemma extract_raises_iff_witness :
  let w := Reference.unix_host (Some "0000:00:00 00:00:00"%string) None 0 in
  extract (exif_time_else_creation_time Reference.fromtimestamp
             Reference.strptime w) ["a.jpg"; "b.jpg"]%string []
  = Raise ValueError.
Proof.
  intros w. apply extract_raises_iff.
  exists [], "a.jpg"%string, ["b.jpg"%string].
  split; [reflexivity|]. split; [intros f [] | vm_compute; reflexivity].
Defined.

(** The map that [main] builds for the images holds each image of the
    listing once, whatever the listing repeats, with the instant the
    resolver returned for it: it is an input the planner's properties
    apply to. *)
Theorem images_info_map_spec {timestamp : Type} {S : PyStr}
  (fromtimestamp : timestamp -> result datetime)
  (strptime : string -> result datetime) (w : host timestamp)
  (files : list string) (m : file_to_time_map) :
  images_info_map fromtimestamp strptime w files = Ok m ->
  is_dict m
  /\ (forall file, In file (dict_keys m)
                   <-> In file files /\ is_image file = true)
  /\ (forall file t, In (file, t) m ->
        exif_time_else_creation_time fromtimestamp strptime w file = Ok t).
Proof.
  unfold images_info_map. intros Hm.
  destruct (extract_spec _ _ _ _ Hm) as [Hd [Hk Hv]]. repeat split.
  - apply Hd. constructor.
  - apply Hk in H. destruct H as [[]|H]. apply filter_In in H. apply H.
  - apply Hk in H. destruct H as [[]|H]. apply filter_In in H. apply H.
  - intros [H1 H2]. apply Hk. right. apply filter_In. auto.
  - apply Hv. intros f t [].
Qed.

Lemma images_info_map_spec_witness :
  let w := Reference.unix_host (Some "2020:01:01 10:00:00"%string) None 0 in
  let m := [("a.jpg"%string, make 2020 1 1 10 0 0 0)] in
  is_dict m
  /\ (forall file, In file (dict_keys m)
                   <-> In file ["a.jpg"; "clip.mp4"; "a.jpg"]%string
                       /\ is_image (S := AsciiText.fold) file = true)
  /\ (forall file t, In (file, t) m ->
        exif_time_else_creation_time Reference.fromtimestamp
          Reference.strptime w file = Ok t).
Proof.
  intros w m.
  apply (images_info_map_spec (S := AsciiText.fold)
           Reference.fromtimestamp Reference.strptime w
           ["a.jpg"; "clip.mp4"; "a.jpg"]%string m).
  vm_compute. reflexivity.
Defined.

(** The same for the videos, which go through [creation_time] alone. *)
Theorem video_files_map_spec {timestamp : Type} {S : PyStr}
  (fromtimestamp : timestamp -> result datetime) (w : host timestamp)
  (files : list string) (m : file_to_time_map) :
  video_files_map fromtimestamp w files = Ok m ->
  is_dict m
  /\ (forall file, In file (dict_keys m)
                   <-> In file files /\ is_video file = true)
  /\ (forall file t, In (file, t) m ->
        creation_time fromtimestamp w file = Ok t).
Proof.
  unfold video_files_map. intros Hm.
  destruct (extract_spec _ _ _ _ Hm) as [Hd [Hk Hv]]. repeat split.
  - apply Hd. constructor.
  - apply Hk in H. destruct H as [[]|H]. apply filter_In in H. apply H.
  - apply Hk in H. destruct H as [[]|H]. apply filter_In in H. apply H.
  - intros [H1 H2]. apply Hk. right. apply filter_In. auto.
  - apply Hv. intros f t [].
Qed.

Lemma video_files_map_spec_witness :
  let w := Reference.unix_host None None
             (Reference.timestamp_of (make 2019 5 5 8 30 0 0)) in
  let m := [("clip.mp4"%string, make 2019 5 5 8 30 0 0)] in
  is_dict m
  /\ (forall file, In file (dict_keys m)
                   <-> In file ["a.jpg"; "clip.mp4"]%string
                       /\ is_video (S := AsciiText.fold) file = true)
  /\ (forall file t, In (file, t) m ->
        creation_time Reference.fromtimestamp w file = Ok t).
Proof.
  intros w m.
  apply (video_files_map_spec (S := AsciiText.fold)
           Reference.fromtimestamp w
           ["a.jpg"; "clip.mp4"]%string m).
  vm_compute. reflexivity.
Defined.

(** ** The first free second *)

Lemma later_add t i j : later (later t i) j = later t (i + j).
Proof. unfold later. lia. Qed.

(** The state of the first loop when it reaches a given pair. *)
Lemma assign_at l1 f t l2 r :
  assign (l1 ++ (f, t) :: l2) [] = Ok r ->
  exists r1 k new2,
    assign l1 [] = Ok r1
    /\ Forall2 placed l1 r1
    /\ r = r1 ++ (later t k, (f, negb (later t k =? t))) :: new2
    /\ ~ In (later t k) (dict_keys r1)
    /\ (forall j, (j < k)%nat -> In (later t j) (dict_keys r1)).
Proof.
  rewrite assign_app. intros Hr.
  destruct (assign l1 []) as [r1|] eqn:E1; [|discriminate].
  simpl in Hr.
  destruct (resolve_collision r1 f t t) as [r2|] eqn:E2; [|discriminate].
  simpl in Hr.
  destruct (assign_spec _ _ _ E1) as [new1 [Hr1 [Hpl1 _]]].
  simpl in Hr1. subst new1.
  apply resolve_collision_spec in E2. destruct E2 as [k [-> [Hfree Htaken]]].
  destruct (assign_spec _ _ _ Hr) as [new2 [-> _]].
  exists r1, k, new2. rewrite <- app_assoc. simpl. auto.
Qed.

Lemma seconds_taken_le t k (keys : list Z) :
  (forall j, (j < k)%nat -> In (later t j) keys) -> (k <= length keys)%nat.
Proof.
  intros Htaken.
  assert (Hlen : length (map (later t) (seq 0 k)) = k)
    by (rewrite length_map, length_seq; reflexivity).
  rewrite <- Hlen at 1. clear Hlen.
  apply NoDup_incl_length.
  - apply Finite.Injective_map_NoDup; [|apply seq_NoDup].
    intros i j. apply later_inj.
  - intros a Ha. apply in_map_iff in Ha. destruct Ha as [j [<- Hj]].
    apply in_seq in Hj. apply Htaken. lia.
Qed.

Lemma same_file_same_entry (r : renamings_map) q1 q2 :
  NoDup (map file_of r) -> In q1 r -> In q2 r -> file_of q1 = file_of q2 ->
  q1 = q2.
Proof.
  induction r as [|q r IH]; simpl; intros Hnd H1 H2 Hf; [contradiction|].
  inversion Hnd as [|? ? Hq Hnd']; subst.
  destruct H1 as [<-|H1], H2 as [<-|H2]; auto.
  - exfalso. apply Hq. rewrite Hf. apply in_map. exact H2.
  - exfalso. apply Hq. rewrite <- Hf. apply in_map. exact H1.
Qed.

(** Every file sits a whole number [k] of seconds after its own capture
    instant, with [k] less than the number of files; each of the [k]
    seconds before it, from its own instant on, is held by another file;
    and the file is flagged exactly when [k] is not zero. *)
Theorem first_free_second (m : file_to_time_map) (r : renamings_map)
  (assigned : datetime) (file : string) (flag : bool) :
  is_dict m ->
  assign (sorted m) [] = Ok r ->
  In (assigned, (file, flag)) r ->
  exists original k,
    In (file, original) m
    /\ assigned = later original k
    /\ (k < length m)%nat
    /\ flag = negb (Nat.eqb k 0)
    /\ forall j, (j < k)%nat ->
        exists other flag',
          other <> file /\ In (later original j, (other, flag')) r.
Proof.
  intros Hm Hr Hin.
  destruct (assign_spec _ _ _ Hr) as [new [Hnew [Hpl _]]].
  simpl in Hnew. subst new.
  assert (Hfiles : NoDup (map file_of r)).
  { rewrite (Forall2_placed_files _ _ Hpl). apply sorted_files_NoDup, Hm. }
  destruct (Forall2_placed_In _ _ _ Hpl Hin) as [[f0 t0] [Hp0 [Hf0 _]]].
  simpl in Hf0. subst f0.
  destruct (in_split _ _ Hp0) as [l1 [l2 Hsplit]].
  rewrite Hsplit in Hr.
  destruct (assign_at _ _ _ _ _ Hr) as [r1 [k [new2 [_ [Hpl1 [Hreq [_ Htaken]]]]]]].
  assert (Hentry : (assigned, (file, flag))
                   = (later t0 k, (file, negb (later t0 k =? t0)))).
  { apply (same_file_same_entry r); auto.
    rewrite Hreq. apply in_or_app. right. left. reflexivity. }
  injection Hentry as -> ->.
  exists t0, k. repeat split.
  - apply (Permutation_in _ (sorted_perm m)). exact Hp0.
  - pose proof (seconds_taken_le _ _ _ Htaken) as Hk.
    unfold dict_keys in Hk. rewrite length_map in Hk.
    rewrite <- (Forall2_length Hpl1) in Hk.
    rewrite <- (Permutation_length (sorted_perm m)), Hsplit, length_app.
    simpl. lia.
  - rewrite later_eqb. reflexivity.
  - intros j Hj. specialize (Htaken j Hj).
    apply in_map_iff in Htaken.
    destruct Htaken as [[a [other fl]] [Ha Hq]]. simpl in Ha. subst a.
    exists other, fl. split.
    + intros ->. rewrite Hreq in Hfiles. rewrite map_app in Hfiles.
      simpl in Hfiles. apply NoDup_remove_2 in Hfiles. apply Hfiles.
      apply in_or_app. left.
      apply in_map_iff. exists (later t0 j, (file, fl)). auto.
    + rewrite Hreq. apply in_or_app. left. exact Hq.
Qed.

Lemma first_free_second_witness :
  let t := make 2020 1 1 10 0 0 0 in
  let m := [("a.jpg", t); ("b.jpg", t); ("c.jpg", t)]%string in
  exists original k,
    In ("c.jpg"%string, original) m
    /\ later t 2 = later original k
    /\ (k < length m)%nat
    /\ true = negb (Nat.eqb k 0)
    /\ forall j, (j < k)%nat ->
        exists other flag',
          other <> "c.jpg"%string
          /\ In (later original j, (other, flag'))
               [(t, ("a.jpg", false)); (later t 1, ("b.jpg", true));
                (later t 2, ("c.jpg", true))]%string.
Proof.
  intros t m.
  apply (first_free_second m _ (later t 2) "c.jpg"%string true).
  - distinct_keys.
  - vm_compute. reflexivity.
  - right. right. left. reflexivity.
Defined.

(** ** Chronological order *)

Lemma StronglySorted_snoc {A} (R : A -> A -> Prop) (l : list A) (x : A) :
  StronglySorted R l -> (forall a, In a l -> R a x) ->
  StronglySorted R (l ++ [x]).
Proof.
  induction 1 as [|a l Hs IH Ha]; intros Hx; simpl.
  - constructor; constructor.
  - constructor.
    + apply IH. intros b Hb. apply Hx. right. exact Hb.
    + apply Forall_app. split; [exact Ha|].
      constructor; [|constructor]. apply Hx. left. reflexivity.
Qed.

Lemma same_grid t s :
  t mod 1000000 = s mod 1000000 -> t <= s -> exists j, s = later t j.
Proof.
  intros Hmod Hle. exists (Z.to_nat ((s - t) / 1000000)).
  unfold later. rewrite Z2Nat.id by (apply Z.div_pos; lia).
  revert Hmod. Z.div_mod_to_equations. lia.
Qed.

(** When the capture instants all have the same fraction of a second, the
    first loop records strictly increasing instants: every second of the
    grid between the last capture instant met and the last assigned
    instant is taken, so a file that collides lands after all of them. *)
Lemma assign_increasing c l :
  forall (r r' : renamings_map) tlast,
    StronglySorted time_le l ->
    (forall p, In p l -> tlast <= snd p /\ snd p mod 1000000 = c) ->
    StronglySorted Z.lt (dict_keys r) ->
    (forall a, In a (dict_keys r) -> a mod 1000000 = c) ->
    (forall s a, In a (dict_keys r) -> tlast <= s <= a ->
                 s mod 1000000 = c -> In s (dict_keys r)) ->
    assign l r = Ok r' ->
    StronglySorted Z.lt (dict_keys r').
Proof.
  induction l as [|[f t] l IH]; intros r r' tlast Hl Hgrid Hs Hc Hfull Hr;
    simpl in Hr.
  - injection Hr as <-. exact Hs.
  - destruct (resolve_collision r f t t) as [r1|] eqn:E1; [|discriminate].
    simpl in Hr. apply resolve_collision_spec in E1.
    destruct E1 as [k [-> [Hfree Htaken]]].
    destruct (Hgrid (f, t) (or_introl eq_refl)) as [Hlast Hmod].
    simpl in Hlast, Hmod.
    assert (Hkmod : later t k mod 1000000 = c).
    { unfold later. rewrite Z.mod_add by lia. exact Hmod. }
    assert (Hbelow : forall a, In a (dict_keys r) -> a < later t k).
    { intros a Ha. destruct (Z.lt_ge_cases a (later t k)) as [|Hge]; auto.
      exfalso. apply Hfree. apply (Hfull (later t k) a Ha); auto.
      pose proof (later_le t k). lia. }
    inversion Hl as [|? ? Hl' Hhead]; subst.
    apply (IH _ _ t Hl') in Hr; auto.
    + intros p Hp. split; [|apply Hgrid; right; exact Hp].
      rewrite Forall_forall in Hhead. apply (Hhead p Hp).
    + unfold dict_keys. rewrite map_app. simpl.
      apply StronglySorted_snoc; auto.
    + intros a Ha. unfold dict_keys in Ha. rewrite map_app in Ha.
      apply in_app_or in Ha. destruct Ha as [Ha|[<-|[]]]; auto.
    + intros s a Ha Hsa Hsmod. unfold dict_keys in *.
      rewrite map_app, in_app_iff in *. simpl in *.
      destruct Ha as [Ha|[<-|[]]].
      * left. apply (Hfull s a Ha); [lia | exact Hsmod].
      * destruct (same_grid t s) as [j Hj]; [congruence | lia |].
        subst s. destruct (Nat.lt_trichotomy j k) as [Hlt|[->|Hgt]].
        -- left. apply Htaken. exact Hlt.
        -- right. left. reflexivity.
        -- exfalso. unfold later in Hsa. lia.
Qed.

Lemma placed_order l :
  forall new,
    Forall2 placed l new ->
    StronglySorted time_le l ->
    StronglySorted Z.lt (map fst new) ->
    NoDup (map fst l) ->
    forall f g tf tg af ag flf flg,
      In (f, tf) l -> In (g, tg) l ->
      In (af, (f, flf)) new -> In (ag, (g, flg)) new ->
      tf < tg -> af < ag.
Proof.
  induction 1 as [|p q l new Hpq Hpl IH];
    intros Hl Hnew Hnd f g tf tg af ag flf flg Hf Hg Haf Hag Hlt;
    [contradiction|].
  inversion Hl as [|? ? Hl' Hhead]; subst.
  inversion Hnew as [|? ? Hnew' Hqhead]; subst.
  inversion Hnd as [|? ? Hp Hnd']; subst.
  rewrite Forall_forall in Hhead, Hqhead.
  destruct Hpq as [Hfile _].
  assert (Hown : forall h th ah flh,
             In (h, th) (p :: l) -> In (ah, (h, flh)) new -> In (h, th) l).
  { intros h th ah flh [->|Hh] Hah; [|exact Hh].
    exfalso. apply Hp. simpl.
    rewrite <- (Forall2_placed_files _ _ Hpl).
    apply in_map_iff. exists (ah, (h, flh)). auto. }
  assert (Hhead' : forall h th ah flh,
             In (h, th) (p :: l) -> q = (ah, (h, flh)) -> p = (h, th)).
  { intros h th ah flh [Hh|Hh] ->; [auto|].
    exfalso. apply Hp. simpl in Hfile. rewrite <- Hfile.
    apply in_map_iff. exists (h, th). auto. }
  destruct Haf as [Haf|Haf], Hag as [Hag|Hag].
  - pose proof (Hhead' _ _ _ _ Hf Haf). pose proof (Hhead' _ _ _ _ Hg Hag).
    subst p. injection H0 as <- <-. lia.
  - subst q. apply (Hqhead ag). apply in_map_iff.
    exists (ag, (g, flg)). auto.
  - pose proof (Hhead' _ _ _ _ Hg Hag). subst p.
    pose proof (Hown _ _ _ _ Hf Haf) as Hf'.
    specialize (Hhead _ Hf'). unfold time_le in Hhead. simpl in Hhead. lia.
  - apply (IH Hl' Hnew' Hnd' f g tf tg af ag flf flg); eauto.
Qed.

(** When all capture instants have the same fraction of a second (whole
    seconds, as EXIF gives them), the planner keeps the chronological
    order: a file captured strictly before another is assigned a strictly
    earlier instant. *)
Theorem chronological_order_kept (m : file_to_time_map) (r : renamings_map)
  (c : Z) (f g : string) (tf tg af ag : datetime) (flf flg : bool) :
  is_dict m ->
  (forall file t, In (file, t) m -> t mod 1000000 = c) ->
  assign (sorted m) [] = Ok r ->
  In (f, tf) m -> In (g, tg) m ->
  In (af, (f, flf)) r -> In (ag, (g, flg)) r ->
  tf < tg -> af < ag.
Proof.
  intros Hm Hgrid Hr Hf Hg Haf Hag Hlt.
  destruct (assign_spec _ _ _ Hr) as [new [Hnew [Hpl _]]].
  simpl in Hnew. subst new.
  assert (Hinc : StronglySorted Z.lt (dict_keys r)).
  { destruct (sorted m) as [|[f0 t0] l] eqn:Es.
    - simpl in Hr. injection Hr as <-. constructor.
    - apply (assign_increasing c _ [] r t0 (sorted_sorted m)).
      + intros p Hp. rewrite Es in Hp. split.
        * pose proof (sorted_sorted m) as Hs. rewrite Es in Hs.
          inversion Hs as [|? ? _ Hhead]; subst.
          destruct Hp as [<-|Hp]; [simpl; lia|].
          rewrite Forall_forall in Hhead. apply (Hhead p Hp).
        * destruct p as [f' t']. apply (Hgrid f').
          apply (Permutation_in _ (sorted_perm m)). rewrite Es. exact Hp.
      + constructor.
      + intros a [].
      + intros s a [].
      + rewrite Es. exact Hr. }
  apply (placed_order _ _ Hpl (sorted_sorted m) Hinc
           (sorted_files_NoDup m Hm) f g tf tg af ag flf flg); auto;
    apply (Permutation_in _ (Permutation_sym (sorted_perm m))); assumption.
Qed.

Lemma chronological_order_kept_witness :
  let t := make 2020 1 1 10 0 0 0 in
  later t 2 < later t 3.
Proof.
  intros t.
  apply (chronological_order_kept
           [("d.jpg", later t 1); ("a.jpg", t); ("b.jpg", t); ("c.jpg", t)]%string
           [(t, ("a.jpg", false)); (later t 1, ("b.jpg", true));
            (later t 2, ("c.jpg", true)); (later t 3, ("d.jpg", true))]%string
           0 "c.jpg"%string "d.jpg"%string t (later t 1) _ _ true true).
  - distinct_keys.
  - intros file t' Hin. simpl in Hin.
    repeat (destruct Hin as [Hin|Hin];
            [injection Hin as _ <-; vm_compute; reflexivity|]).
    destruct Hin.
  - vm_compute. reflexivity.
  - simpl. auto 6.
  - simpl. auto.
  - simpl. auto 6.
  - simpl. auto 6.
  - vm_compute. reflexivity.
Defined.

(** ** The report *)

Lemma insert_by_name_perm p l : Permutation (insert_by_name p l) (p :: l).
Proof.
  induction l as [|q l IH]; simpl; [reflexivity|].
  destruct (String.leb (fst (snd p)) (fst (snd q))); [reflexivity|].
  rewrite IH. apply perm_swap.
Qed.

Lemma sorted_by_name_perm l : Permutation (sorted_by_name l) l.
Proof.
  induction l as [|p l IH]; simpl; [reflexivity|].
  rewrite insert_by_name_perm. constructor. exact IH.
Qed.

Lemma insert_by_name_sorted p l :
  Sorted name_le l -> Sorted name_le (insert_by_name p l).
Proof.
  induction 1 as [|q l Hs IH Hq]; simpl.
  - repeat constructor.
  - destruct (String.leb (fst (snd p)) (fst (snd q))) eqn:E.
    + constructor; [constructor; assumption|]. constructor. exact E.
    + constructor; [exact IH|].
      assert (Hqp : name_le q p).
      { unfold name_le.
        destruct (String.leb_total (fst (snd p)) (fst (snd q))); congruence. }
      destruct l as [|q' l]; simpl.
      * constructor. exact Hqp.
      * destruct (String.leb (fst (snd p)) (fst (snd q'))); constructor;
          [exact Hqp|]. inversion Hq; assumption.
Qed.

Lemma sorted_by_name_sorted l : Sorted name_le (sorted_by_name l).
Proof.
  induction l as [|p l IH]; simpl; [constructor|].
  apply insert_by_name_sorted. exact IH.
Qed.


Lemma report_set_absent (file : string) v (d : dict string string) :
  ~ In file (dict_keys d) -> dict_set String.eqb file v d = d ++ [(file, v)].
Proof. apply dict_set_absent, String.eqb_eq. Qed.

Lemma dump_loop_spec `{Colorama} items :
  forall result printed,
    NoDup (dict_keys result ++ map fst items) ->
    dump_loop items result printed
    = (result ++ map reported items,
       printed ++ map (fun e => report_line (fst e) (fst (snd e))
                                  (snd (snd e))) items).
Proof.
  induction items as [|[original [renamed collision]] items IH];
    intros result printed Hnd; simpl.
  - rewrite !app_nil_r. reflexivity.
  - simpl in Hnd. rewrite report_set_absent.
    + rewrite IH.
      * rewrite <- !app_assoc. reflexivity.
      * unfold dict_keys. rewrite map_app. simpl. rewrite <- app_assoc.
        exact Hnd.
    + apply NoDup_remove_2 in Hnd. intros Hin. apply Hnd.
      apply in_or_app. left. exact Hin.
Qed.

Lemma Sorted_map {A B} (R : A -> A -> Prop) (R' : B -> B -> Prop)
  (f : A -> B) (l : list A) :
  (forall a b, R a b -> R' (f a) (f b)) ->
  Sorted R l -> Sorted R' (map f l).
Proof.
  intros HR. induction 1 as [|a l Hs IH Ha]; simpl; constructor; auto.
  destruct Ha; simpl; constructor; auto.
Qed.

(** [dump_renamings] returns the original-to-target pairs of the plan,
    none altered, added or lost, in ascending order of target name, and
    prints one line per pair in that order, styled by the pair's flag. *)
Theorem dump_renamings_spec `{Colorama} (p : plan) :
  is_dict p ->
  Permutation (fst (dump_renamings p)) (map reported p)
  /\ Sorted (fun a b => String.leb (snd a) (snd b) = true)
       (fst (dump_renamings p))
  /\ is_dict (fst (dump_renamings p))
  /\ Forall2 (fun a line =>
                exists collision,
                  In (fst a, (snd a, collision)) p
                  /\ line = report_line (fst a) (snd a) collision)
       (fst (dump_renamings p)) (snd (dump_renamings p)).
Proof.
  intros Hp. unfold dump_renamings.
  assert (Hnd : NoDup (map fst (sorted_by_name p))).
  { eapply Permutation_NoDup; [|exact Hp].
    apply Permutation_map. symmetry. apply sorted_by_name_perm. }
  rewrite dump_loop_spec by exact Hnd. simpl. repeat split.
  - apply Permutation_map, sorted_by_name_perm.
  - apply (Sorted_map name_le); [|apply sorted_by_name_sorted].
    intros a b Hab. exact Hab.
  - unfold is_dict, dict_keys. rewrite map_map. exact Hnd.
  - assert (Hin : forall e, In e (sorted_by_name p) -> In e p)
      by (intros e; apply Permutation_in, sorted_by_name_perm).
    clear Hnd.
    induction (sorted_by_name p) as [|[o [r c]] l IH]; simpl;
      constructor.
    + exists c. split; [apply Hin; left|]; reflexivity.
    + apply IH. intros e He. apply Hin. right. exact He.
Qed.

Lemma dump_renamings_spec_witness :
  let p := [("a.jpg", ("2020-01-01 10:00:01.jpg", true));
            ("b.jpg", ("2020-01-01 10:00:00.jpg", false))]%string in
  Permutation (fst (dump_renamings (H := Ansi.colorama) p)) (map reported p)
  /\ Sorted (fun a b => String.leb (snd a) (snd b) = true)
       (fst (dump_renamings (H := Ansi.colorama) p))
  /\ is_dict (fst (dump_renamings (H := Ansi.colorama) p))
  /\ Forall2 (fun a line =>
                exists collision,
                  In (fst a, (snd a, collision)) p
                  /\ line = report_line (H := Ansi.colorama)
                              (fst a) (snd a) collision)
       (fst (dump_renamings (H := Ansi.colorama) p))
       (snd (dump_renamings (H := Ansi.colorama) p)).
Proof.
  intros p. apply (dump_renamings_spec (H := Ansi.colorama) p).
  distinct_keys.
Defined.

Example dump_renamings_example :
  fst (dump_renamings (H := Ansi.colorama)
         [("a.jpg", ("2020-01-01 10:00:01.jpg", true));
          ("b.jpg", ("2020-01-01 10:00:00.jpg", false))]%string)
  = [("b.jpg", "2020-01-01 10:00:00.jpg");
     ("a.jpg", "2020-01-01 10:00:01.jpg")]%string.
Proof. vm_compute. reflexivity. Qed.

(** ** Executing the plan *)

Lemma files_rename_target fs a b fs' :
  Files.rename fs a b = Ok fs' -> Files.read fs' b = Files.read fs a.
Proof.
  unfold Files.rename, Files.read. destruct (fs a) as [c|]; [|discriminate].
  intros [= <-]. rewrite String.eqb_refl. reflexivity.
Qed.

Lemma files_rename_source fs a b fs' :
  Files.rename fs a b = Ok fs' -> a <> b -> Files.read fs' a = None.
Proof.
  unfold Files.rename, Files.read. destruct (fs a) as [c|]; [|discriminate].
  intros [= <-] Hne. apply String.eqb_neq in Hne. rewrite Hne.
  rewrite String.eqb_refl. reflexivity.
Qed.

Lemma files_rename_other fs a b fs' p :
  Files.rename fs a b = Ok fs' -> p <> a -> p <> b ->
  Files.read fs' p = Files.read fs p.
Proof.
  unfold Files.rename, Files.read. destruct (fs a) as [c|]; [|discriminate].
  intros [= <-] Ha Hb. apply String.eqb_neq in Ha, Hb. rewrite Ha, Hb.
  reflexivity.
Qed.

Section ExecutionFacts.

Variable filesystem : Type.
Variable rename : filesystem -> string -> string -> result filesystem.

Lemma rename_loop_updates items :
  forall n fs ups fs' ups',
    rename_loop rename items n fs ups = (fs', ups', None) ->
    ups' = ups ++ seq (S n) (length items).
Proof.
  induction items as [|[a b] items IH]; intros n fs ups fs' ups' H;
    simpl in H.
  - injection H as _ <-. simpl. rewrite app_nil_r. reflexivity.
  - destruct (rename fs a b) as [fs1|e]; [|discriminate].
    apply IH in H. rewrite H, <- app_assoc. reflexivity.
Qed.

Lemma rename_loop_raises_iff items :
  forall n fs ups fs' ups' e,
    rename_loop rename items n fs ups = (fs', ups', Some e)
    <-> exists before original renamed after,
        items = before ++ (original, renamed) :: after
        /\ rename_loop rename before n fs ups
           = (fs', ups ++ seq (S n) (length before), None)
        /\ rename fs' original renamed = Raise e
        /\ ups' = ups ++ seq (S n) (S (length before)).
Proof.
  induction items as [|[a b] items IH]; intros n fs ups fs' ups' e; simpl.
  - split; [discriminate|].
    intros [before [o [r [after [H _]]]]]. destruct before; discriminate.
  - destruct (rename fs a b) as [fs1|e1] eqn:E.
    + rewrite IH. split.
      * intros [before [o [r [after [-> [Hb [Hr ->]]]]]]].
        exists ((a, b) :: before), o, r, after. simpl. rewrite E.
        rewrite Hb, <- !app_assoc. simpl. auto.
      * intros [before [o [r [after [Heq [Hb [Hr ->]]]]]]].
        destruct before as [|[a' b'] before]; simpl in Heq, Hb.
        -- injection Heq as <- <- <-. injection Hb as <- _. congruence.
        -- injection Heq as <- <- ->. rewrite E in Hb.
           exists before, o, r, after. split; [reflexivity|].
           pose proof (rename_loop_updates _ _ _ _ _ _ Hb) as Hu.
           rewrite Hu in Hb. split; [exact Hb|]. split; [exact Hr|].
           simpl. rewrite <- !app_assoc. reflexivity.
    + split.
      * intros [= <- <- <-]. exists [], a, b, items. simpl.
        rewrite app_nil_r. auto.
      * intros [before [o [r [after [Heq [Hb [Hr ->]]]]]]].
        destruct before as [|[a' b'] before]; simpl in Heq, Hb.
        -- injection Heq as <- <- <-. injection Hb as <- _.
           rewrite E in Hr. injection Hr as <-. reflexivity.
        -- injection Heq as <- <- ->. rewrite E in Hb. discriminate.
Qed.

(** [rename_files] stops at the first rename that raises: the renames
    before it stay applied, the ones after it are not attempted, and the
    progress bar has been advanced up to the failing file. *)
Theorem rename_files_stops_at_first_failure
  (renamings : dict string string) (fs fs' : filesystem)
  (updates : list nat) (e : exception) :
  rename_files rename renamings fs = (fs', updates, Some e)
  <-> exists before original renamed after,
      renamings = before ++ (original, renamed) :: after
      /\ rename_files rename before fs
         = (fs', seq 1 (length before), None)
      /\ rename fs' original renamed = Raise e
      /\ updates = seq 1 (S (length before)).
Proof.
  unfold rename_files. apply rename_loop_raises_iff.
Qed.

Variable content : Type.
Variable read : filesystem -> string -> option content.

(** What [os.rename] does when it succeeds: the target receives the
    content of the source, replacing what was there; the source is gone;
    no other path changes. *)
Hypothesis rename_target : forall fs a b fs',
  rename fs a b = Ok fs' -> read fs' b = read fs a.
Hypothesis rename_source : forall fs a b fs',
  rename fs a b = Ok fs' -> a <> b -> read fs' a = None.
Hypothesis rename_other : forall fs a b fs' p,
  rename fs a b = Ok fs' -> p <> a -> p <> b -> read fs' p = read fs p.

Lemma rename_loop_frame items p :
  forall n fs ups fs' ups',
    rename_loop rename items n fs ups = (fs', ups', None) ->
    (forall a b, In (a, b) items -> p <> a /\ p <> b) ->
    read fs' p = read fs p.
Proof.
  induction items as [|[a b] items IH]; intros n fs ups fs' ups' H Hp;
    simpl in H.
  - injection H as <- _. reflexivity.
  - destruct (rename fs a b) as [fs1|e] eqn:E; [|discriminate].
    apply IH in H.
    + rewrite H. destruct (Hp a b (or_introl eq_refl)).
      eapply rename_other; eauto.
    + intros a' b' Hin. apply Hp. right. exact Hin.
Qed.

Lemma rename_loop_moves items :
  forall n fs ups fs' ups',
    NoDup (map fst items) ->
    NoDup (map snd items) ->
    (forall o r o' r', In (o, r) items -> In (o', r') items ->
                       r = o' -> o' = o) ->
    rename_loop rename items n fs ups = (fs', ups', None) ->
    forall original renamed,
      In (original, renamed) items ->
      read fs' renamed = read fs original
      /\ (original <> renamed -> read fs' original = None).
Proof.
  induction items as [|[a b] items IH];
    intros n fs ups fs' ups' Hsrc Htgt Hown H original renamed Hin;
    simpl in H; [contradiction|].
  destruct (rename fs a b) as [fs1|e] eqn:E; [|discriminate].
  inversion Hsrc as [|? ? Ha Hsrc']; subst.
  inversion Htgt as [|? ? Hb Htgt']; subst.
  simpl in Ha, Hb.
  assert (Hsrc_a : forall o r, In (o, r) items -> o <> a).
  { intros o r Hor ->. apply Ha. apply in_map_iff. exists (a, r). auto. }
  assert (Htgt_b : forall o r, In (o, r) items -> r <> b).
  { intros o r Hor ->. apply Hb. apply in_map_iff. exists (o, b). auto. }
  assert (Hb_src : forall o r, In (o, r) items -> o <> b).
  { intros o r Hor ->.
    apply (Hsrc_a b r Hor).
    apply (Hown a b b r); simpl; auto. }
  assert (Ha_tgt : forall o r, In (o, r) items -> r <> a).
  { intros o r Hor ->.
    apply (Hsrc_a o a Hor). symmetry.
    apply (Hown o a a b); simpl; auto. }
  destruct Hin as [[= <- <-]|Hin].
  - split.
    + rewrite (rename_loop_frame _ b _ _ _ _ _ H).
      * eapply rename_target; eauto.
      * intros o r Hor. split; intros ->;
          [eapply Hb_src | eapply Htgt_b]; eauto.
    + intros Hne. rewrite (rename_loop_frame _ a _ _ _ _ _ H).
      * eapply rename_source; eauto.
      * intros o r Hor. split; intros ->;
          [eapply Hsrc_a | eapply Ha_tgt]; eauto.
  - destruct (IH _ _ _ _ _ Hsrc' Htgt'
                (fun o r o' r' H1 H2 => Hown o r o' r' (or_intror H1)
                                          (or_intror H2))
                H original renamed Hin) as [H1 H2].
    split; [|exact H2]. rewrite H1.
    eapply rename_other; eauto.
Qed.

(** When the targets are pairwise distinct and a target that is also the
    name of a file of the batch is that file's own name, a run of
    [rename_files] that completes leaves the content of every file at its
    target and nothing at the old name, and has advanced the progress bar
    once per file. *)
Theorem rename_files_moves_every_file (renamings : dict string string)
  (fs fs' : filesystem) (updates : list nat) :
  is_dict renamings ->
  NoDup (map snd renamings) ->
  (forall o r o' r', In (o, r) renamings -> In (o', r') renamings ->
                     r = o' -> o' = o) ->
  rename_files rename renamings fs = (fs', updates, None) ->
  updates = seq 1 (length renamings)
  /\ forall original renamed,
      In (original, renamed) renamings ->
      read fs' renamed = read fs original
      /\ (original <> renamed -> read fs' original = None).
Proof.
  unfold rename_files. intros Hsrc Htgt Hown H. split.
  - apply (rename_loop_updates _ _ _ _ _ _ H).
  - eapply rename_loop_moves; eauto.
Qed.

Lemma rename_loop_last_wins l1 :
  forall n fs ups fs' ups' original renamed l2,
    NoDup (map fst (l1 ++ (original, renamed) :: l2)) ->
    (forall o r o' r', In (o, r) (l1 ++ (original, renamed) :: l2) ->
                       In (o', r') (l1 ++ (original, renamed) :: l2) ->
                       r <> o') ->
    ~ In renamed (map snd l2) ->
    rename_loop rename (l1 ++ (original, renamed) :: l2) n fs ups
    = (fs', ups', None) ->
    read fs' renamed = read fs original.
Proof.
  induction l1 as [|[a b] l1 IH];
    intros n fs ups fs' ups' original renamed l2 Hsrc Hdis Hlast H;
    simpl in H.
  - destruct (rename fs original renamed) as [fs1|e] eqn:E; [|discriminate].
    rewrite (rename_loop_frame _ renamed _ _ _ _ _ H).
    + eapply rename_target; eauto.
    + intros o r Hor. split.
      * intros ->. apply (Hdis original o o r); simpl; auto.
      * intros ->. apply Hlast. apply in_map_iff. exists (o, r). auto.
  - destruct (rename fs a b) as [fs1|e] eqn:E; [|discriminate].
    simpl in Hsrc. inversion Hsrc as [|? ? Ha Hsrc']; subst.
    rewrite (IH _ _ _ _ _ _ _ _ Hsrc'
               (fun o r o' r' H1 H2 => Hdis o r o' r' (or_intror H1)
                                         (or_intror H2))
               Hlast H).
    eapply rename_other; eauto.
    + intros ->. apply Ha. apply in_map_iff. exists (a, renamed).
      split; [reflexivity|]. apply in_or_app. right. left. reflexivity.
    + intros ->. apply (Hdis a b b renamed); simpl; auto.
      right. apply in_or_app. right. left. reflexivity.
Qed.

Lemma rename_loop_sources_gone items :
  forall n fs ups fs' ups',
    NoDup (map fst items) ->
    (forall o r o' r', In (o, r) items -> In (o', r') items -> r <> o') ->
    rename_loop rename items n fs ups = (fs', ups', None) ->
    forall o r, In (o, r) items -> read fs' o = None.
Proof.
  induction items as [|[a b] items IH];
    intros n fs ups fs' ups' Hsrc Hdis H o r Hin; simpl in H;
    [contradiction|].
  destruct (rename fs a b) as [fs1|e] eqn:E; [|discriminate].
  inversion Hsrc as [|? ? Ha Hsrc']; subst.
  destruct Hin as [[= <- <-]|Hin].
  - rewrite (rename_loop_frame _ a _ _ _ _ _ H).
    + eapply rename_source; eauto.
      intros Hab. apply (Hdis a b a b); simpl; auto.
    + intros o r Hor. split.
      * intros Heq. apply Ha. apply in_map_iff. exists (o, r).
        split; [symmetry; exact Heq | exact Hor].
      * intros Heq. apply (Hdis o r a b); simpl; auto.
  - apply (IH _ _ _ _ _ Hsrc'
             (fun o r o' r' H1 H2 => Hdis o r o' r' (or_intror H1)
                                       (or_intror H2))
             H o r Hin).
Qed.

(** [rename_files] does not look for repeated targets.  When no target is
    the name of a file of the batch and several files have the same
    target, a run that completes leaves at that target the content of the
    last of them, and nothing at any old name: the files renamed to that
    target before the last are replaced. *)
Theorem rename_files_last_wins (l1 l2 : dict string string)
  (original renamed : string) (fs fs' : filesystem) (updates : list nat) :
  is_dict (l1 ++ (original, renamed) :: l2) ->
  (forall o r o' r', In (o, r) (l1 ++ (original, renamed) :: l2) ->
                     In (o', r') (l1 ++ (original, renamed) :: l2) ->
                     r <> o') ->
  ~ In renamed (map snd l2) ->
  rename_files rename (l1 ++ (original, renamed) :: l2) fs
  = (fs', updates, None) ->
  read fs' renamed = read fs original
  /\ forall o r, In (o, r) (l1 ++ (original, renamed) :: l2) ->
                 read fs' o = None.
Proof.
  unfold rename_files. intros Hsrc Hdis Hlast H. split.
  - eapply rename_loop_last_wins; eauto.
  - eapply rename_loop_sources_gone; eauto.
Qed.

End ExecutionFacts.

Lemma rename_files_stops_at_first_failure_witness :
  let fs := Files.of_list [("a.jpg", 1%nat); ("c.jpg", 3%nat)]%string in
  let fs' := match Files.rename fs "a.jpg" "x.jpg" with
             | Ok renamed => renamed
             | Raise _ => fs
             end in
  rename_files Files.rename
    [("a.jpg", "x.jpg"); ("b.jpg", "y.jpg"); ("c.jpg", "z.jpg")]%string fs
  = (fs', [1; 2]%nat, Some OSError)
  /\ Files.read fs' "x.jpg" = Some 1%nat
  /\ Files.read fs' "c.jpg" = Some 3%nat.
Proof.
  intros fs fs'. split; [|split; vm_compute; reflexivity].
  apply (proj2 (rename_files_stops_at_first_failure _ Files.rename
                  _ fs fs' [1; 2]%nat OSError)).
  exists [("a.jpg", "x.jpg")]%string, "b.jpg"%string, "y.jpg"%string,
    [("c.jpg", "z.jpg")]%string.
  split; [reflexivity|]. split; [vm_compute; reflexivity|].
  split; vm_compute; reflexivity.
Defined.

Lemma rename_files_moves_every_file_witness :
  let fs := Files.of_list [("a.jpg", 1%nat); ("b.jpg", 2%nat)]%string in
  let renamings := [("a.jpg", "b.jpg.tmp"); ("b.jpg", "b.jpg")]%string in
  let out := rename_files Files.rename renamings fs in
  snd (fst out) = seq 1 (length renamings)
  /\ forall original renamed,
      In (original, renamed) renamings ->
      Files.read (fst (fst out)) renamed = Files.read fs original
      /\ (original <> renamed -> Files.read (fst (fst out)) original = None).
Proof.
  intros fs renamings out.
  apply (rename_files_moves_every_file _ Files.rename _ Files.read
           files_rename_target files_rename_source files_rename_other
           renamings fs (fst (fst out)) (snd (fst out))).
  - distinct_keys.
  - simpl. repeat (constructor; [simpl; intuition discriminate|]).
    constructor.
  - intros o r o' r' H1 H2 Heq. simpl in H1, H2.
    repeat match goal with
           | H : _ \/ _ |- _ => destruct H
           | H : False |- _ => destruct H
           | H : (_, _) = (_, _) |- _ => injection H as ? ?
           end; subst; congruence.
  - vm_compute. reflexivity.
Defined.

Lemma rename_files_last_wins_witness :
  let fs := Files.of_list [("/d/a.mp4", 1%nat); ("/d/b.mp4", 2%nat)]%string in
  let target := "/d/2020-01-01 10:00:00.mp4"%string in
  let renamings := [("/d/a.mp4"%string, target)]
                   ++ ("/d/b.mp4"%string, target) :: [] in
  let out := rename_files Files.rename renamings fs in
  Files.read (fst (fst out)) target = Files.read fs "/d/b.mp4"
  /\ forall o r, In (o, r) renamings -> Files.read (fst (fst out)) o = None.
Proof.
  intros fs target renamings out.
  apply (rename_files_last_wins _ Files.rename _ Files.read
           files_rename_target files_rename_source files_rename_other
           _ _ _ _ fs (fst (fst out)) (snd (fst out))).
  - distinct_keys.
  - intros o r o' r' H1 H2 Heq. subst renamings target. simpl in H1, H2.
    repeat match goal with
           | H : _ \/ _ |- _ => destruct H
           | H : False |- _ => destruct H
           | H : (_, _) = (_, _) |- _ => injection H as ? ?
           end; subst; congruence.
  - intros [].
  - vm_compute. reflexivity.
Defined.

(** ** Target names of whole-second instants *)

Lemma resolve_collision_bound renamings file original_time time renamings' :
  resolve_collision renamings file original_time time = Ok renamings' ->
  time <= datetime_max ->
  forall a, In a (dict_keys renamings') ->
            In a (dict_keys renamings) \/ a <= datetime_max.
Proof.
  funelim (resolve_collision renamings file original_time time);
    forget_inspect.
  - intros [= <-] Hmax a Ha.
    match goal with Hc : dict_contains _ _ _ = false |- _ =>
      apply renamings_free in Hc; rewrite renamings_set_free in Ha by exact Hc
    end.
    unfold dict_keys in Ha. rewrite map_app in Ha.
    apply in_app_or in Ha. destruct Ha as [Ha|[<-|[]]]; auto.
  - intros Hr Hmax a Ha.
    match goal with Hadd : add _ _ = Ok _ |- _ =>
      apply add_second_inv in Hadd; destruct Hadd as [-> Hle] end.
    match goal with IH : forall r, _ = Ok r -> _ |- _ =>
      apply (IH _ Hr Hle a Ha) end.
  - discriminate.
Qed.

Lemma assign_keys_bounded l :
  forall r r',
    assign l r = Ok r' ->
    (forall p, In p l -> snd p <= datetime_max) ->
    (forall a, In a (dict_keys r) -> a <= datetime_max) ->
    forall a, In a (dict_keys r') -> a <= datetime_max.
Proof.
  induction l as [|[f t] l IH]; intros r r' Hr Hl Hb; simpl in Hr.
  - injection Hr as <-. exact Hb.
  - destruct (resolve_collision r f t t) as [r1|] eqn:E1; [|discriminate].
    simpl in Hr. apply (IH _ _ Hr).
    + intros p Hp. apply Hl. right. exact Hp.
    + intros a Ha.
      destruct (resolve_collision_bound _ _ _ _ _ E1
                  (Hl (f, t) (or_introl eq_refl)) a Ha); auto.
Qed.

Lemma same_instant_same_entry (r : renamings_map) q1 q2 :
  is_dict r -> In q1 r -> In q2 r -> fst q1 = fst q2 -> q1 = q2.
Proof.
  unfold is_dict, dict_keys.
  induction r as [|q r IH]; simpl; intros Hnd H1 H2 Hf; [contradiction|].
  inversion Hnd as [|? ? Hq Hnd']; subst.
  destruct H1 as [<-|H1], H2 as [<-|H2]; auto.
  - exfalso. apply Hq. rewrite Hf. apply in_map. exact H2.
  - exfalso. apply Hq. rewrite <- Hf. apply in_map. exact H1.
Qed.

Lemma names_distinct_on_whole_seconds `{PathLib}
  (m : file_to_time_map) (p : plan) (d : string) :
  is_dict m ->
  (forall file t, In (file, t) m -> valid t /\ t mod 1000000 = 0) ->
  (forall file t, In (file, t) m -> dir_name_of file = d) ->
  (forall t1 e1 t2 e2,
      join d (strftime t1 ++ e1) = join d (strftime t2 ++ e2) ->
      (strftime t1 ++ e1)%string = (strftime t2 ++ e2)%string) ->
  calculate_renamings m = Ok p ->
  NoDup (map (fun e => fst (snd e)) p).
Proof.
  intros Hm Hwhole Hdir Hjoin Hp.
  destruct (calculate_renamings_spec m p Hm Hp) as [r [Hr [Hpl [Hd ->]]]].
  rewrite map_map. cbn [plan_entry fst snd].
  assert (Hkeys : forall q, In q r ->
            dir_name_of (file_of q) = d
            /\ valid (fst q) /\ fst q mod 1000000 = 0).
  { intros q Hq.
    destruct (Forall2_placed_In _ _ _ Hpl Hq) as [[f0 t0] [Hp0 [Hf [[k Hk] _]]]].
    simpl in Hf, Hk. apply (Permutation_in _ (sorted_perm m)) in Hp0.
    destruct (Hwhole _ _ Hp0) as [[H0 Hmax] Hmod].
    split; [unfold file_of; rewrite Hf; eapply Hdir; eauto|].
    split; [split|].
    - rewrite Hk. pose proof (later_le t0 k). lia.
    - apply (assign_keys_bounded _ _ _ Hr).
      + intros p' Hp'. destruct p' as [f' t'].
        apply (Permutation_in _ (sorted_perm m)) in Hp'.
        apply (Hwhole _ _ Hp').
      + intros a [].
      + apply in_map. exact Hq.
    - rewrite Hk. unfold later. rewrite Z.mod_add by lia. exact Hmod. }
  apply Finite.Injective_map_NoDup_in.
  - intros q1 q2 H1 H2 Hname.
    destruct (Hkeys q1 H1) as [Hd1 [V1 W1]].
    destruct (Hkeys q2 H2) as [Hd2 [V2 W2]].
    rewrite !renamed_file_name_parts, Hd1, Hd2 in Hname.
    apply Hjoin in Hname.
    apply strftime_append_inj in Hname; auto.
    apply (same_instant_same_entry r); auto. apply Hname.
  - eapply NoDup_map_inv. exact Hd.
Qed.

(** When every capture instant is a valid [datetime] with whole seconds
    (as EXIF gives them), the files are in one directory and [join] on
    that directory tells apart the names it is given, the target names of
    the plan are pairwise distinct. *)
Theorem whole_seconds_give_distinct_names `{PathLib}
  (m : file_to_time_map) (p : plan) (d : string) :
  is_dict m ->
  (forall file t, In (file, t) m -> valid t /\ t mod 1000000 = 0) ->
  (forall file t, In (file, t) m -> dir_name_of file = d) ->
  (forall t1 e1 t2 e2,
      join d (strftime t1 ++ e1) = join d (strftime t2 ++ e2) ->
      (strftime t1 ++ e1)%string = (strftime t2 ++ e2)%string) ->
  calculate_renamings m = Ok p ->
  NoDup (map (fun e => fst (snd e)) p).
Proof. apply names_distinct_on_whole_seconds. Qed.

Lemma append_cancel_l (d a b : string) :
  (d ++ a)%string = (d ++ b)%string -> a = b.
Proof.
  induction d as [|c d IH]; simpl; [auto|]. intros [= H]. auto.
Qed.

Lemma digit_not_slash z : digit z <> "/"%char.
Proof.
  unfold digit. intros H. apply (f_equal nat_of_ascii) in H.
  pose proof (Z.mod_pos_bound z 10 ltac:(lia)).
  rewrite nat_ascii_embedding in H by lia.
  change (nat_of_ascii "/") with 47%nat in H. lia.
Qed.

(** [posixpath.join] keeps a name that starts with a timestamp as it
    is, after the directory. *)
Lemma posix_join_timestamp d t1 e1 t2 e2 :
  Posix.posixpath_join d (strftime t1 ++ e1)
  = Posix.posixpath_join d (strftime t2 ++ e2) ->
  (strftime t1 ++ e1)%string = (strftime t2 ++ e2)%string.
Proof.
  assert (Hrel : forall t e,
             Str.startswith (strftime t ++ e) "/" = false).
  { intros t e. unfold strftime, Str.startswith.
    destruct (ord2ymd (ordinal_of t)) as [[y m] dd].
    unfold digits4. cbn [append String.prefix].
    destruct (ascii_dec "/" (digit (y / 1000))) as [E|]; [|reflexivity].
    symmetry in E. apply digit_not_slash in E. destruct E. }
  unfold Posix.posixpath_join. rewrite !Hrel.
  destruct (negb (Str.nonempty d) || Str.endswith d "/")%bool.
  - apply append_cancel_l.
  - intros H. apply append_cancel_l in H. simpl in H.
    injection H as H. exact H.
Qed.

Lemma whole_seconds_give_distinct_names_witness :
  let t := make 2020 1 1 10 0 0 0 in
  let m := [("/d/a.jpg", t); ("/d/b.jpg", t); ("/d/c.JPG", t)]%string in
  NoDup ["/d/2020-01-01 10:00:00.jpg"; "/d/2020-01-01 10:00:01.jpg";
         "/d/2020-01-01 10:00:02.JPG"]%string.
Proof.
  intros t m.
  apply (whole_seconds_give_distinct_names (H := Posix.host) m
           [("/d/a.jpg", ("/d/2020-01-01 10:00:00.jpg", false));
            ("/d/b.jpg", ("/d/2020-01-01 10:00:01.jpg", true));
            ("/d/c.JPG", ("/d/2020-01-01 10:00:02.JPG", true))]%string
           "/d"%string).
  - distinct_keys.
  - intros file t' Hin. simpl in Hin.
    repeat (destruct Hin as [Hin|Hin];
            [injection Hin as _ <-; split; [split|]; vm_compute;
             try reflexivity; discriminate|]).
    destruct Hin.
  - intros file t' Hin. simpl in Hin.
    repeat (destruct Hin as [Hin|Hin];
            [injection Hin as <- _; vm_compute; reflexivity|]).
    destruct Hin.
  - apply posix_join_timestamp.
  - vm_compute. reflexivity.
Defined.

(** ** Order of the files that share an instant *)

Lemma filter_split {A} (f : A -> bool) l :
  forall a x b,
    filter f l = a ++ x :: b ->
    exists l1 l2, l = l1 ++ x :: l2 /\ filter f l1 = a /\ filter f l2 = b.
Proof.
  induction l as [|y l IH]; intros a x b Hf; simpl in Hf.
  - destruct a; discriminate.
  - destruct (f y) eqn:E.
    + destruct a as [|z a]; simpl in Hf; injection Hf as -> Hf.
      * exists [], l. auto.
      * destruct (IH _ _ _ Hf) as [l1 [l2 [-> [H1 H2]]]].
        exists (z :: l1), l2. simpl. rewrite E, H1. auto.
    + destruct (IH _ _ _ Hf) as [l1 [l2 [-> [H1 H2]]]].
      exists (y :: l1), l2. simpl. rewrite E. auto.
Qed.

(** Of two files with the same capture instant, the one that the input
    lists first is assigned the earlier second, and the other one is
    displaced. *)
Lemma ties_assigned_in_input_order (m : file_to_time_map) r t f g l1 l2 l3
  af ag flf flg :
  is_dict m ->
  m = l1 ++ (f, t) :: l2 ++ (g, t) :: l3 ->
  assign (sorted m) [] = Ok r ->
  In (af, (f, flf)) r -> In (ag, (g, flg)) r ->
  exists k k' : nat,
    (k < k')%nat /\ af = later t k /\ ag = later t k' /\ flg = true.
Proof.
  intros Hm Hsplit Hr Hf Hg.
  pose proof (sorted_stable t m) as Hst.
  rewrite Hsplit in Hst at 2. unfold at_time in Hst.
  rewrite filter_app in Hst. cbn [filter snd] in Hst.
  rewrite Z.eqb_refl, filter_app in Hst. cbn [filter snd] in Hst.
  rewrite Z.eqb_refl in Hst.
  destruct (filter_split _ _ _ _ _ Hst) as [s1 [s2 [Hs [_ Hst2]]]].
  destruct (filter_split _ _ _ _ _ Hst2) as [s2a [s3 [-> _]]].
  destruct (assign_spec _ _ _ Hr) as [new [Hnew [Hpl _]]].
  simpl in Hnew. subst new.
  assert (Hfiles : NoDup (map file_of r)).
  { rewrite (Forall2_placed_files _ _ Hpl). apply sorted_files_NoDup.
    exact Hm. }
  rewrite Hs in Hr.
  change (s1 ++ (f, t) :: s2a ++ (g, t) :: s3)
    with (s1 ++ ((f, t) :: s2a) ++ (g, t) :: s3) in Hr.
  rewrite app_assoc in Hr.
  destruct (assign_at _ _ _ _ _ Hr)
    as [r1 [k' [new2 [Hr1 [_ [Heq [Hfree _]]]]]]].
  destruct (assign_at _ _ _ _ _ Hr1)
    as [r0 [k [new1 [_ [_ [Heq1 [_ Htaken]]]]]]].
  assert (Hf' : In (later t k, (f, negb (later t k =? t))) r).
  { rewrite Heq, Heq1. apply in_or_app. left. apply in_or_app. right.
    left. reflexivity. }
  assert (Hg' : In (later t k', (g, negb (later t k' =? t))) r).
  { rewrite Heq. apply in_or_app. right. left. reflexivity. }
  pose proof (same_file_same_entry r _ _ Hfiles Hf Hf' eq_refl) as Ef.
  pose proof (same_file_same_entry r _ _ Hfiles Hg Hg' eq_refl) as Eg.
  injection Ef as -> _. injection Eg as -> ->.
  assert (Hk : (k < k')%nat).
  { destruct (Nat.lt_ge_cases k k') as [|Hge]; [assumption|].
    exfalso. apply Hfree. rewrite Heq1. unfold dict_keys. rewrite map_app.
    apply in_or_app.
    destruct (Nat.eq_dec k' k) as [->|Hne].
    - right. left. reflexivity.
    - left. apply Htaken. lia. }
  exists k, k'. repeat split; try assumption.
  apply negb_true_iff, Z.eqb_neq. unfold later. lia.
Qed.

(** C2, as the code has it.  Two enumerations of the same pairs that list
    the files of each capture instant in the same relative order give the
    identical plan.  Files that share a capture instant are processed in
    input order: the sort keeps them in the order of the input, and of two
    such files the one listed first is named after the earlier second,
    while the other one is displaced. *)
Theorem plan_independent_of_order_up_to_ties `{PathLib}
  (m1 m2 : file_to_time_map) :
  Permutation m1 m2 ->
  (forall t, at_time t m1 = at_time t m2) ->
  calculate_renamings m1 = calculate_renamings m2
  /\ (forall t, at_time t (sorted m1) = at_time t m1)
  /\ (forall p t f g l1 l2 l3 name_f name_g flag_f flag_g,
        is_dict m1 ->
        m1 = l1 ++ (f, t) :: l2 ++ (g, t) :: l3 ->
        calculate_renamings m1 = Ok p ->
        In (f, (name_f, flag_f)) p -> In (g, (name_g, flag_g)) p ->
        exists assigned_f assigned_g,
          t <= assigned_f < assigned_g
          /\ name_f = renamed_file_name f assigned_f
          /\ name_g = renamed_file_name g assigned_g
          /\ flag_g = true).
Proof.
  intros _ Hties. split; [|split].
  - apply calculate_renamings_tie_order. exact Hties.
  - intros t. apply sorted_stable.
  - intros p t f g l1 l2 l3 nf ng flf flg Hm Hsplit Hp Hf Hg.
    destruct (calculate_renamings_spec m1 p Hm Hp) as [r [Hr [_ [_ ->]]]].
    apply in_map_iff in Hf, Hg.
    destruct Hf as [[af [f' flf']] [Ef Hf]].
    destruct Hg as [[ag [g' flg']] [Eg Hg]].
    unfold plan_entry, file_of in Ef, Eg. simpl in Ef, Eg.
    injection Ef as -> <- ->. injection Eg as -> <- ->.
    destruct (ties_assigned_in_input_order m1 r t f g l1 l2 l3 _ _ _ _
                Hm Hsplit Hr Hf Hg) as [k [k' [Hk [-> [-> Hflag]]]]].
    exists (later t k), (later t k'). repeat split; try assumption.
    + apply later_le.
    + unfold later. lia.
Qed.

Lemma plan_independent_of_order_up_to_ties_witness :
  let t := make 2020 1 1 10 0 0 0 in
  let m1 := [("a.jpg", t); ("c.jpg", t - 5); ("b.jpg", t)]%string in
  let m2 := [("a.jpg", t); ("b.jpg", t); ("c.jpg", t - 5)]%string in
  calculate_renamings (H := Posix.host) m1
  = calculate_renamings (H := Posix.host) m2
  /\ (forall t', at_time t' (sorted m1) = at_time t' m1)
  /\ (forall p t' f g l1 l2 l3 name_f name_g flag_f flag_g,
        is_dict m1 ->
        m1 = l1 ++ (f, t') :: l2 ++ (g, t') :: l3 ->
        calculate_renamings (H := Posix.host) m1 = Ok p ->
        In (f, (name_f, flag_f)) p -> In (g, (name_g, flag_g)) p ->
        exists assigned_f assigned_g,
          t' <= assigned_f < assigned_g
          /\ name_f = renamed_file_name (H := Posix.host) f assigned_f
          /\ name_g = renamed_file_name (H := Posix.host) g assigned_g
          /\ flag_g = true).
Proof.
  intros t m1 m2.
  apply (plan_independent_of_order_up_to_ties (H := Posix.host) m1 m2).
  - apply perm_skip. apply perm_swap.
  - intros t'. unfold at_time, m1, m2. cbn [filter snd].
    destruct (Z.eqb_spec t t'), (Z.eqb_spec (t - 5) t');
      try reflexivity; exfalso; lia.
Defined.

(** C2, as stated, fails: files that share a capture instant are
    processed in input order, so exchanging them exchanges their target
    names and flags. *)
Lemma plan_depends_on_order_of_ties :
  let t := make 2020 1 1 10 0 0 0 in
  let m1 := [("a.jpg", t); ("b.jpg", t)]%string in
  let m2 := [("b.jpg", t); ("a.jpg", t)]%string in
  Permutation m1 m2
  /\ is_dict m1 /\ is_dict m2
  /\ calculate_renamings (H := Posix.host) m1
     = Ok [("a.jpg", ("2020-01-01 10:00:00.jpg", false));
           ("b.jpg", ("2020-01-01 10:00:01.jpg", true))]%string
  /\ calculate_renamings (H := Posix.host) m2
     = Ok [("b.jpg", ("2020-01-01 10:00:00.jpg", false));
           ("a.jpg", ("2020-01-01 10:00:01.jpg", true))]%string
  /\ calculate_renamings (H := Posix.host) m1
     <> calculate_renamings (H := Posix.host) m2.
Proof.
  intros t m1 m2. split; [apply perm_swap|].
  split; [distinct_keys|]. split; [distinct_keys|].
  split; [vm_compute; reflexivity|]. split; [vm_compute; reflexivity|].
  vm_compute. discriminate.
Qed.

(** ** Totality *)

Lemma seconds_left_spec s j :
  (j < seconds_left s)%nat <-> later s j <= datetime_max.
Proof.
  unfold seconds_left, later. generalize datetime_max. intros mx.
  Z.div_mod_to_equations. lia.
Qed.

Lemma grid_later s a :
  s <= a -> (a - s) mod 1000000 = 0 -> exists j, a = later s j.
Proof.
  intros Hle Hmod. exists (Z.to_nat ((a - s) / 1000000)).
  unfold later. revert Hmod. Z.div_mod_to_equations. lia.
Qed.

Lemma later_grid s j : (later s j - s) mod 1000000 = 0.
Proof. unfold later. Z.div_mod_to_equations. lia. Qed.

Lemma NoDup_map_filter {A B} (g : A -> B) (f : A -> bool) l :
  NoDup (map g l) -> NoDup (map g (filter f l)).
Proof.
  induction l as [|x l IH]; simpl; intros Hnd; [constructor|].
  inversion Hnd as [|? ? Hx Hl]; subst. destruct (f x); simpl; auto.
  constructor; auto. intros Hin. apply Hx.
  apply in_map_iff in Hin. destruct Hin as [y [Hy Hin]].
  apply filter_In in Hin. apply in_map_iff. exists y. tauto.
Qed.

Lemma slots_NoDup s n : NoDup (map (later s) (seq 0 n)).
Proof.
  apply Finite.Injective_map_NoDup; [|apply seq_NoDup].
  intros i j. apply later_inj.
Qed.

(** When the loop overflows, every second from [time] up to
    [datetime_max] is assigned. *)
Lemma resolve_collision_overflow renamings file original_time time exn :
  resolve_collision renamings file original_time time = Raise exn ->
  0 <= time ->
  exists k : nat,
    (forall j, (j <= k)%nat -> In (later time j) (dict_keys renamings))
    /\ datetime_max < later time (S k).
Proof.
  funelim (resolve_collision renamings file original_time time);
    forget_inspect.
  - discriminate.
  - intros Hr H0. apply add_second_inv in e0. destruct e0 as [-> _].
    match goal with IH : forall x, _ = Raise x -> _ |- _ =>
      destruct (IH _ Hr ltac:(lia)) as [k [Htaken Hmax]] end.
    exists (S k). split.
    + intros j Hj. destruct j as [|j].
      * rewrite later_0. apply dict_contains_In. exact e.
      * rewrite <- later_S. apply Htaken. lia.
    + rewrite <- later_S. exact Hmax.
  - intros _ H0. exists 0%nat. split.
    + intros j Hj. replace j with 0%nat by lia. rewrite later_0.
      apply dict_contains_In. assumption.
    + unfold add, timedelta_seconds in *.
      match goal with H : (if ?b then _ else _) = Raise _ |- _ =>
        destruct b eqn:E; [discriminate|] end.
      apply andb_false_iff in E. unfold later.
      destruct E as [E|E]; [apply Z.leb_gt in E | apply Z.leb_gt in E]; lia.
Qed.

(** A failure of the first loop is the failure of the collision loop for
    one file, after the files before it were assigned. *)
Lemma assign_raises_at l :
  forall r exn,
    assign l r = Raise exn ->
    exists l1 f t l2 r1,
      l = l1 ++ (f, t) :: l2
      /\ assign l1 r = Ok r1
      /\ resolve_collision r1 f t t = Raise exn.
Proof.
  induction l as [|[f t] l IH]; intros r exn Hr; simpl in Hr;
    [discriminate|].
  destruct (resolve_collision r f t t) as [r'|e'] eqn:E; simpl in Hr.
  - destruct (IH _ _ Hr) as [l1 [f1 [t1 [l2 [r1 [-> [H1 H2]]]]]]].
    exists ((f, t) :: l1), f1, t1, l2, r1. simpl. rewrite E. simpl.
    auto.
  - injection Hr as <-. exists [], f, t, l, r. auto.
Qed.

(** Each entry of [renamings] comes from a file of the input, and the
    seconds between the instant of the file and the assigned one are
    taken. *)
Lemma assigned_entry_origin l r a g fl :
  NoDup (map fst l) ->
  assign l [] = Ok r ->
  In (a, (g, fl)) r ->
  exists t0 k0,
    In (g, t0) l /\ a = later t0 k0
    /\ forall j, (j < k0)%nat -> In (later t0 j) (dict_keys r).
Proof.
  intros Hnd Hr Hq.
  destruct (assign_spec _ _ _ Hr) as [new [Hnew [Hpl _]]].
  simpl in Hnew. subst new.
  destruct (Forall2_placed_In _ _ _ Hpl Hq) as [[g0 t0] [Hp [Hf _]]].
  simpl in Hf. subst g0.
  destruct (in_split _ _ Hp) as [l1 [l2 ->]].
  destruct (assign_at _ _ _ _ _ Hr) as [r1 [k [new2 [_ [_ [Heq [_ Htaken]]]]]]].
  assert (Hfiles : NoDup (map file_of r))
    by (rewrite (Forall2_placed_files _ _ Hpl); exact Hnd).
  assert (Hq' : In (later t0 k, (g, negb (later t0 k =? t0))) r)
    by (rewrite Heq; apply in_or_app; right; left; reflexivity).
  pose proof (same_file_same_entry r _ _ Hfiles Hq Hq' eq_refl) as Hsame.
  injection Hsame as -> _.
  exists t0, k. split; [exact Hp|]. split; [reflexivity|].
  intros j Hj. rewrite Heq. unfold dict_keys. rewrite map_app.
  apply in_or_app. left. apply Htaken. exact Hj.
Qed.

(** Below an assigned instant the assigned seconds end somewhere. *)
Lemma lowest_taken (keys : list Z) t :
  In t keys ->
  exists i : nat,
    (forall j, (j <= i)%nat -> In (t - Z.of_nat j * 1000000) keys)
    /\ ~ In (t - Z.of_nat (S i) * 1000000) keys.
Proof.
  intros Ht.
  assert (Haux : forall fuel i,
             (length keys < i + 1 + fuel)%nat ->
             (forall j, (j <= i)%nat -> In (t - Z.of_nat j * 1000000) keys) ->
             exists i' : nat,
               (forall j, (j <= i')%nat ->
                          In (t - Z.of_nat j * 1000000) keys)
               /\ ~ In (t - Z.of_nat (S i') * 1000000) keys).
  { induction fuel as [|fuel IH]; intros i Hlen Hi.
    - exfalso.
      assert (Hk : (i + 1 <= length keys)%nat).
      { apply (seconds_taken_le (t - Z.of_nat i * 1000000)).
        intros j Hj.
        replace (later (t - Z.of_nat i * 1000000) j)
          with (t - Z.of_nat (i - j) * 1000000) by (unfold later; lia).
        apply Hi. lia. }
      lia.
    - destruct (in_dec Z.eq_dec (t - Z.of_nat (S i) * 1000000) keys)
        as [Hin|Hout].
      + apply (IH (S i)); [lia|].
        intros j Hj. destruct (Nat.eq_dec j (S i)) as [->|Hne];
          [exact Hin | apply Hi; lia].
      + exists i. auto. }
  apply (Haux (length keys) 0%nat); [lia|].
  intros j Hj. replace j with 0%nat by lia.
  replace (t - Z.of_nat 0 * 1000000) with t by lia. exact Ht.
Qed.

Lemma captured_from_In s (m : list (string * Z)) f t :
  In (f, t) (captured_from s m)
  <-> In (f, t) m /\ s <= t /\ (t - s) mod 1000000 = 0.
Proof.
  unfold captured_from. rewrite filter_In. simpl.
  rewrite andb_true_iff, Z.leb_le, Z.eqb_eq. tauto.
Qed.

(** An overflow means that too many files were captured at some instant
    [s] or whole seconds after it. *)
Lemma overflow_overfull (m : file_to_time_map) exn :
  is_dict m ->
  (forall f t, In (f, t) m -> valid t) ->
  assign (sorted m) [] = Raise exn ->
  exists s, (seconds_left s < length (captured_from s m))%nat.
Proof.
  intros Hm Hvalid Hraise.
  destruct (assign_raises_at _ _ _ Hraise)
    as [l1 [f [t [l2 [r1 [Hsplit [Hr1 Hres]]]]]]].
  assert (Hsub : forall p, In p l1 -> In p m).
  { intros p Hp. apply (Permutation_in _ (sorted_perm m)).
    rewrite Hsplit. apply in_or_app. left. exact Hp. }
  assert (Hft : In (f, t) m).
  { apply (Permutation_in _ (sorted_perm m)).
    rewrite Hsplit. apply in_or_app. right. left. reflexivity. }
  pose proof (sorted_files_NoDup m Hm) as Hnd.
  rewrite Hsplit, map_app in Hnd. simpl in Hnd.
  pose proof (NoDup_remove_2 _ _ _ Hnd) as Hf.
  assert (Hnd1 : NoDup (map fst l1)).
  { apply NoDup_remove_1 in Hnd. apply NoDup_app_remove_r in Hnd.
    exact Hnd. }
  destruct (resolve_collision_overflow _ _ _ _ _ Hres
              (proj1 (Hvalid f t Hft))) as [k [Hup Hover]].
  destruct (lowest_taken (dict_keys r1) t)
    as [i [Hdown Hlow]].
  { rewrite <- (later_0 t). apply Hup. lia. }
  destruct (assign_spec _ _ _ Hr1) as [new [Hnew [Hpl _]]].
  simpl in Hnew. subst new.
  assert (Hfiles : map file_of r1 = map fst l1)
    by (apply Forall2_placed_files; exact Hpl).
  set (s := t - Z.of_nat i * 1000000).
  set (inside := fun q : Z * (string * bool) =>
                   (s <=? fst q) && ((fst q - s) mod 1000000 =? 0)).
  assert (Hinside : forall q, inside q = true
                      <-> s <= fst q /\ (fst q - s) mod 1000000 = 0).
  { intros q. unfold inside.
    rewrite andb_true_iff, Z.leb_le, Z.eqb_eq. tauto. }
  (* the files behind the assigned seconds from [s] on were captured at
     [s] or later *)
  assert (Horigin : forall a g fl,
             In (a, (g, fl)) r1 -> s <= a -> (a - s) mod 1000000 = 0 ->
             exists t0, In (g, t0) l1 /\ s <= t0
                        /\ (t0 - s) mod 1000000 = 0).
  { intros a g fl Hq Hle Hmod.
    destruct (assigned_entry_origin _ _ _ _ _ Hnd1 Hr1 Hq)
      as [t0 [k0 [Hin [-> Htaken]]]].
    assert (Hmod0 : (t0 - s) mod 1000000 = 0).
    { revert Hmod. unfold later. Z.div_mod_to_equations. lia. }
    exists t0. split; [exact Hin|]. split; [|exact Hmod0].
    destruct (Z.le_gt_cases s t0) as [|Hlt]; [assumption|].
    exfalso. apply Hlow.
    assert (Hj : exists j, (j < k0)%nat
                           /\ t - Z.of_nat (S i) * 1000000 = later t0 j).
    { exists (Z.to_nat ((s - 1000000 - t0) / 1000000)).
      revert Hmod0 Hle. unfold later. subst s.
      Z.div_mod_to_equations. lia. }
    destruct Hj as [j [Hj ->]]. apply Htaken. exact Hj. }
  exists s.
  (* every second from [s] to [datetime_max] is assigned *)
  assert (Hslots : incl (map (later s) (seq 0 (seconds_left s)))
                     (map fst (filter inside r1))).
  { intros a Ha. apply in_map_iff in Ha. destruct Ha as [j [<- Hj]].
    apply in_seq in Hj. assert (Hjs : (j < seconds_left s)%nat) by lia.
    apply seconds_left_spec in Hjs.
    assert (Hkey : In (later s j) (dict_keys r1)).
    { destruct (Nat.le_gt_cases j i) as [Hji|Hji].
      - replace (later s j) with (t - Z.of_nat (i - j) * 1000000)
          by (unfold later; subst s; lia).
        apply Hdown. lia.
      - replace (later s j) with (later t (j - i))
          by (unfold later; subst s; lia).
        apply Hup.
        assert (later t (j - i) = later s j)
          by (unfold later; subst s; lia).
        unfold later in *. lia. }
    unfold dict_keys in Hkey. apply in_map_iff in Hkey.
    destruct Hkey as [q [Hq Hin]]. apply in_map_iff. exists q.
    split; [exact Hq|]. apply filter_In. split; [exact Hin|].
    apply Hinside. rewrite Hq. split; [apply later_le | apply later_grid]. }
  pose proof (NoDup_incl_length (slots_NoDup s (seconds_left s)) Hslots)
    as Hlen1.
  rewrite !length_map, length_seq in Hlen1.
  (* their files, and the file that overflowed, are distinct *)
  assert (Hndf : NoDup (f :: map file_of (filter inside r1))).
  { constructor.
    - intros Hin. apply Hf. apply in_or_app. left. rewrite <- Hfiles.
      apply in_map_iff in Hin. destruct Hin as [q [Hq Hin]].
      apply filter_In in Hin. apply in_map_iff. exists q. tauto.
    - apply NoDup_map_filter. rewrite Hfiles. exact Hnd1. }
  assert (Hincl : incl (f :: map file_of (filter inside r1))
                    (map fst (captured_from s m))).
  { intros g [<-|Hg].
    - apply in_map_iff. exists (f, t). split; [reflexivity|].
      apply captured_from_In. split; [exact Hft|].
      subst s. split; [lia|]. Z.div_mod_to_equations. lia.
    - apply in_map_iff in Hg. destruct Hg as [[a [g' fl]] [Hq Hin]].
      unfold file_of in Hq. simpl in Hq. subst g'.
      apply filter_In in Hin. destruct Hin as [Hin Hc].
      apply Hinside in Hc. simpl in Hc. destruct Hc as [Hle Hmod].
      destruct (Horigin _ _ _ Hin Hle Hmod) as [t0 [Hin0 [Hle0 Hmod0]]].
      apply in_map_iff. exists (g, t0). split; [reflexivity|].
      apply captured_from_In. auto. }
  pose proof (NoDup_incl_length Hndf Hincl) as Hlen2.
  simpl in Hlen2. rewrite !length_map in Hlen2. lia.
Qed.

(** When too many files were captured at some instant [s] or whole
    seconds after it, there is no second left for one of them. *)
Lemma overfull_overflow (m : file_to_time_map) s r :
  is_dict m ->
  (forall f t, In (f, t) m -> valid t) ->
  assign (sorted m) [] = Ok r ->
  (length (captured_from s m) <= seconds_left s)%nat.
Proof.
  intros Hm Hvalid Hr.
  destruct (assign_spec _ _ _ Hr) as [new [Hnew [Hpl Hd]]].
  simpl in Hnew. subst new. specialize (Hd ltac:(constructor)).
  assert (Hmax : forall a, In a (dict_keys r) -> a <= datetime_max).
  { apply (assign_keys_bounded _ _ _ Hr); [|intros a []].
    intros [f t] Hp. apply (Permutation_in _ (sorted_perm m)) in Hp.
    apply (Hvalid f t Hp). }
  set (inside := fun q : Z * (string * bool) =>
                   (s <=? fst q) && ((fst q - s) mod 1000000 =? 0)).
  assert (Hinside : forall q, inside q = true
                      <-> s <= fst q /\ (fst q - s) mod 1000000 = 0).
  { intros q. unfold inside.
    rewrite andb_true_iff, Z.leb_le, Z.eqb_eq. tauto. }
  assert (Hslots : incl (map fst (filter inside r))
                     (map (later s) (seq 0 (seconds_left s)))).
  { intros a Ha. apply in_map_iff in Ha. destruct Ha as [q [<- Hin]].
    apply filter_In in Hin. destruct Hin as [Hin Hc].
    apply Hinside in Hc. destruct Hc as [Hle Hmod].
    destruct (grid_later _ _ Hle Hmod) as [j Hj].
    apply in_map_iff. exists j. split; [auto|].
    apply in_seq. split; [lia|]. simpl. apply seconds_left_spec.
    rewrite <- Hj. apply Hmax. apply in_map. exact Hin. }
  assert (Hnd1 : NoDup (map fst (filter inside r)))
    by (apply NoDup_map_filter; exact Hd).
  pose proof (NoDup_incl_length Hnd1 Hslots) as Hlen1.
  rewrite !length_map, length_seq in Hlen1.
  assert (Hincl : incl (map fst (captured_from s m))
                    (map file_of (filter inside r))).
  { intros g Hg. apply in_map_iff in Hg. destruct Hg as [[g' t0] [Hq Hin]].
    simpl in Hq. subst g'. apply captured_from_In in Hin.
    destruct Hin as [Hin [Hle Hmod]].
    apply (Permutation_in _ (Permutation_sym (sorted_perm m))) in Hin.
    destruct (Forall2_placed_In_l _ _ _ Hpl Hin) as [q [Hq [Hf [[k Hk] _]]]].
    simpl in Hf, Hk. apply in_map_iff. exists q. split; [exact Hf|].
    apply filter_In. split; [exact Hq|]. apply Hinside. rewrite Hk.
    pose proof (later_le t0 k). split; [lia|].
    revert Hmod. unfold later. Z.div_mod_to_equations. lia. }
  assert (Hnd2 : NoDup (map fst (captured_from s m)))
    by (apply NoDup_map_filter; exact Hm).
  pose proof (NoDup_incl_length Hnd2 Hincl) as Hlen2.
  rewrite !length_map in Hlen2. lia.
Qed.

(** C9, as the code has it.  The planner always ends: on the empty
    mapping with the empty plan, and on a mapping of valid instants with a
    plan unless too many files crowd before [datetime_max]: it raises
    [OverflowError] exactly when, for some instant [s], more files were
    captured at [s] or a whole number of seconds after [s] than there are
    seconds from [s] to [datetime_max].  In particular it returns a plan
    whenever every capture instant is at least N - 1 seconds before
    [datetime_max], for N files; and [OverflowError] is its only
    failure. *)
Theorem planner_total `{PathLib} :
  calculate_renamings [] = Ok []
  /\ (forall m : file_to_time_map,
        is_dict m ->
        (forall file t, In (file, t) m -> valid t) ->
        (calculate_renamings m = Raise OverflowError
         <-> exists s, (seconds_left s < length (captured_from s m))%nat)
        /\ ((exists p, calculate_renamings m = Ok p)
            <-> forall s, (length (captured_from s m) <= seconds_left s)%nat))
  /\ (forall m : file_to_time_map,
        (forall file t, In (file, t) m ->
           valid t /\ later t (length m - 1) <= datetime_max) ->
        exists p, calculate_renamings m = Ok p)
  /\ (forall (m : file_to_time_map) e,
        calculate_renamings m = Raise e -> e = OverflowError).
Proof.
  split; [reflexivity|]. split; [|split].
  - intros m Hm Hvalid. unfold calculate_renamings.
    destruct (assign (sorted m) []) as [r|e] eqn:E; simpl.
    + pose proof (fun s => overfull_overflow m s r Hm Hvalid E) as Hroom.
      split; split.
      * discriminate.
      * intros [s Hs]. specialize (Hroom s). lia.
      * intros _. exact Hroom.
      * intros _. eauto.
    + pose proof (overflow_overfull m e Hm Hvalid E) as [s Hs].
      rewrite (assign_raises _ _ _ E). split; split.
      * intros _. eauto.
      * reflexivity.
      * intros [p Hp]. discriminate.
      * intros Hroom. specialize (Hroom s). lia.
  - intros m Hok. unfold calculate_renamings.
    destruct (assign_succeeds (sorted m) []) as [r Hr].
    + intros f t Hin.
      apply (Permutation_in _ (sorted_perm m)) in Hin.
      destruct (Hok f t Hin) as [[H0 _] Hmax]. split; [exact H0|].
      simpl. rewrite (Permutation_length (sorted_perm m)). exact Hmax.
    + rewrite Hr. simpl. eauto.
  - intros m e. unfold calculate_renamings.
    destruct (assign (sorted m) []) as [r|e'] eqn:E; simpl; [discriminate|].
    intros [= <-]. eapply assign_raises; eauto.
Qed.

Lemma planner_total_witness :
  let m := [("a.jpg", make 2000 1 1 0 0 0 0);
            ("b.jpg", make 9999 12 31 23 59 59 0)]%string in
  let m' := [("a.jpg", make 9999 12 31 23 59 58 0);
             ("b.jpg", make 9999 12 31 23 59 58 0);
             ("c.jpg", make 9999 12 31 23 59 59 0)]%string in
  (exists p, calculate_renamings (H := Posix.host) m = Ok p)
  /\ (exists s, (seconds_left s < length (captured_from s m'))%nat).
Proof.
  intros m m'. split.
  - apply (proj1 (proj2 (planner_total (H := Posix.host))) m).
    + distinct_keys.
    + intros file t [[= <- <-]|[[= <- <-]|[]]];
        split; vm_compute; discriminate.
    + intros s. unfold captured_from, seconds_left, m. cbn [filter snd].
      let v := eval vm_compute in (make 2000 1 1 0 0 0 0) in
      change (make 2000 1 1 0 0 0 0) with v.
      let v := eval vm_compute in (make 9999 12 31 23 59 59 0) in
      change (make 9999 12 31 23 59 59 0) with v.
      let v := eval vm_compute in datetime_max in
      change datetime_max with v.
      repeat match goal with
             | |- context [?a <=? ?b] => destruct (Z.leb_spec a b)
             | |- context [?a =? ?b] => destruct (Z.eqb_spec a b)
             end; cbn [andb length]; try lia;
        Z.div_mod_to_equations; lia.
  - apply (proj1 (proj2 (planner_total (H := Posix.host))) m').
    + distinct_keys.
    + intros file t [[= <- <-]|[[= <- <-]|[[= <- <-]|[]]]];
        split; vm_compute; discriminate.
    + vm_compute. reflexivity.
Defined.

(** C9, as stated, fails: two files at the last representable second. *)
Lemma planner_overflows_at_datetime_max :
  let m := [("a.jpg", make 9999 12 31 23 59 59 0);
            ("b.jpg", make 9999 12 31 23 59 59 0)]%string in
  is_dict m
  /\ Forall (fun e => valid (snd e)) m
  /\ calculate_renamings (H := Posix.host) m = Raise OverflowError
  /\ ~ exists p, calculate_renamings (H := Posix.host) m = Ok p.
Proof.
  intros m. split; [distinct_keys|]. split.
  - repeat constructor; vm_compute; discriminate.
  - split; [vm_compute; reflexivity|].
    intros [p Hp]. vm_compute in Hp. discriminate.
Qed.

(** ** From the plan to the renamed files *)

Lemma dump_renamings_result `{Colorama} (p : plan) :
  is_dict p -> fst (dump_renamings p) = map reported (sorted_by_name p).
Proof.
  intros Hp. unfold dump_renamings. rewrite dump_loop_spec; [reflexivity|].
  simpl. eapply Permutation_NoDup; [|exact Hp].
  apply Permutation_map. symmetry. apply sorted_by_name_perm.
Qed.

Lemma plan_keys `{PathLib} (m : file_to_time_map) (p : plan) :
  is_dict m -> calculate_renamings m = Ok p ->
  is_dict p /\ forall file, In file (dict_keys p) -> In file (dict_keys m).
Proof.
  intros Hm Hp.
  destruct (calculate_renamings_spec m p Hm Hp) as [r [_ [Hpl [_ ->]]]].
  assert (Hkeys : dict_keys (map plan_entry r) = map fst (sorted m)).
  { unfold dict_keys. rewrite map_map. simpl.
    apply (Forall2_placed_files _ _ Hpl). }
  split.
  - unfold is_dict. rewrite Hkeys. apply sorted_files_NoDup. exact Hm.
  - intros file. rewrite Hkeys.
    apply Permutation_in, Permutation_map, sorted_perm.
Qed.

Section PipelineFacts.

Context `{PathLib} `{Colorama}.
Variable filesystem : Type.
Variable rename : filesystem -> string -> string -> result filesystem.
Variable content : Type.
Variable read : filesystem -> string -> option content.

Hypothesis rename_target : forall fs a b fs',
  rename fs a b = Ok fs' -> read fs' b = read fs a.
Hypothesis rename_source : forall fs a b fs',
  rename fs a b = Ok fs' -> a <> b -> read fs' a = None.
Hypothesis rename_other : forall fs a b fs' p,
  rename fs a b = Ok fs' -> p <> a -> p <> b -> read fs' p = read fs p.

(** The plan of a batch of whole-second instants in one directory,
    reported by [dump_renamings] and executed by [rename_files]: when no
    target is the current name of another file of the batch and the run
    completes, the content of every file is at its target and nothing is
    left at the old name. *)
Theorem plan_execution_moves_every_file (m : file_to_time_map) (p : plan)
  (d : string) (fs fs' : filesystem) (updates : list nat) :
  is_dict m ->
  (forall file t, In (file, t) m -> valid t /\ t mod 1000000 = 0) ->
  (forall file t, In (file, t) m -> dir_name_of file = d) ->
  (forall t1 e1 t2 e2,
      join d (strftime t1 ++ e1) = join d (strftime t2 ++ e2) ->
      (strftime t1 ++ e1)%string = (strftime t2 ++ e2)%string) ->
  calculate_renamings m = Ok p ->
  (forall file name flag other t,
      In (file, (name, flag)) p -> In (other, t) m -> name = other ->
      other = file) ->
  rename_files rename (fst (dump_renamings p)) fs = (fs', updates, None) ->
  forall file name flag,
    In (file, (name, flag)) p ->
    read fs' name = read fs file
    /\ (file <> name -> read fs' file = None).
Proof.
  intros Hm Hwhole Hdir Hjoin Hp Hown Hrun file name flag Hin.
  destruct (plan_keys m p Hm Hp) as [Hpd Hpk].
  pose proof (names_distinct_on_whole_seconds m p d Hm Hwhole Hdir Hjoin Hp)
    as Hnames.
  rewrite (dump_renamings_result p Hpd) in Hrun.
  pose proof (sorted_by_name_perm p) as Hperm.
  unfold rename_files in Hrun.
  apply (rename_loop_moves _ rename _ read rename_target rename_source
           rename_other _ _ _ _ _ _) with (original := file)
           (renamed := name) in Hrun; auto.
  - rewrite map_map. simpl. eapply Permutation_NoDup; [|exact Hpd].
    apply Permutation_map. symmetry. exact Hperm.
  - rewrite map_map. simpl. eapply Permutation_NoDup; [|exact Hnames].
    apply Permutation_map. symmetry. exact Hperm.
  - intros o r o' r' H1 H2 Heq.
    apply in_map_iff in H1. destruct H1 as [[f1 [n1 c1]] [E1 H1]].
    apply in_map_iff in H2. destruct H2 as [[f2 [n2 c2]] [E2 H2]].
    unfold reported in E1, E2. simpl in E1, E2.
    injection E1 as <- <-. injection E2 as <- <-.
    apply (Permutation_in _ Hperm) in H1, H2.
    assert (Hk : In f2 (dict_keys m)).
    { apply Hpk. apply in_map_iff. exists (f2, (n2, c2)). auto. }
    apply in_map_iff in Hk. destruct Hk as [[f2' t2] [Ef Hk]].
    simpl in Ef. subst f2'.
    apply (Hown f1 n1 c1 f2 t2); auto.
  - apply in_map_iff. exists (file, (name, flag)). split; [reflexivity|].
    apply (Permutation_in _ (Permutation_sym Hperm)). exact Hin.
Qed.

End PipelineFacts.

Lemma plan_execution_moves_every_file_witness :
  let t := make 2020 1 1 10 0 0 0 in
  let m := [("/d/b.jpg", t); ("/d/a.jpg", t)]%string in
  let p := [("/d/b.jpg", ("/d/2020-01-01 10:00:00.jpg", false));
            ("/d/a.jpg", ("/d/2020-01-01 10:00:01.jpg", true))]%string in
  let fs := Files.of_list [("/d/a.jpg", 1%nat); ("/d/b.jpg", 2%nat)]%string in
  let out := rename_files Files.rename
               (fst (dump_renamings (H := Ansi.colorama) p)) fs in
  Files.read (fst (fst out)) "/d/2020-01-01 10:00:01.jpg"
  = Files.read fs "/d/a.jpg"
  /\ ("/d/a.jpg"%string <> "/d/2020-01-01 10:00:01.jpg"%string ->
      Files.read (fst (fst out)) "/d/a.jpg" = None).
Proof.
  intros t m p fs out.
  apply (plan_execution_moves_every_file (H := Posix.host)
           (H0 := Ansi.colorama) _ Files.rename _ Files.read
           files_rename_target files_rename_source files_rename_other
           m p "/d"%string fs (fst (fst out)) (snd (fst out)))
    with (flag := true).
  - distinct_keys.
  - intros file t' Hin. simpl in Hin.
    repeat (destruct Hin as [Hin|Hin];
            [injection Hin as _ <-; split; [split|]; vm_compute;
             try reflexivity; discriminate|]).
    destruct Hin.
  - intros file t' Hin. simpl in Hin.
    repeat (destruct Hin as [Hin|Hin];
            [injection Hin as <- _; vm_compute; reflexivity|]).
    destruct Hin.
  - apply posix_join_timestamp.
  - vm_compute. reflexivity.
  - intros file name flag other t' H1 H2 Heq. subst p m. simpl in H1, H2.
    repeat match goal with
           | H : _ \/ _ |- _ => destruct H
           | H : False |- _ => destruct H
           | H : (_, _) = (_, _) |- _ => injection H as ? ?
           end; subst; congruence.
  - vm_compute. reflexivity.
  - right. left. reflexivity.
Defined.

(** ** The target name on a POSIX host *)

Lemma takewhile_stop {A} (f : A -> bool) l1 x l2 :
  forallb f l1 = true -> f x = false ->
  Str.takewhile f (l1 ++ x :: l2) = l1
  /\ Str.dropwhile f (l1 ++ x :: l2) = x :: l2.
Proof.
  intros H1 Hx. induction l1 as [|a l1 IH]; simpl in *.
  - rewrite Hx. auto.
  - apply andb_true_iff in H1. destruct H1 as [Ha H1]. rewrite Ha.
    destruct (IH H1) as [-> ->]. auto.
Qed.

Lemma takewhile_all {A} (f : A -> bool) l :
  forallb f l = true -> Str.takewhile f l = l.
Proof.
  induction l as [|a l IH]; simpl; [reflexivity|].
  intros H. apply andb_true_iff in H. destruct H as [-> H].
  rewrite IH; auto.
Qed.

Lemma forallb_rev {A} (f : A -> bool) l : forallb f (rev l) = forallb f l.
Proof.
  induction l as [|a l IH]; simpl; [reflexivity|].
  rewrite forallb_app, IH. simpl. rewrite andb_true_r, andb_comm.
  reflexivity.
Qed.

Lemma of_chars_chars s : Str.of_chars (Str.chars s) = s.
Proof. apply string_of_list_ascii_of_string. Qed.

Lemma normsep_sep c : Ascii.eqb (Posix.normsep c) "\" = Posix.is_ntsep c.
Proof.
  unfold Posix.normsep, Posix.is_ntsep.
  destruct (Ascii.eqb c "/"); reflexivity.
Qed.

Lemma normsep_colon c : Ascii.eqb (Posix.normsep c) ":" = Ascii.eqb c ":".
Proof.
  unfold Posix.normsep. destruct (Ascii.eqb_spec c "/") as [->|]; reflexivity.
Qed.

(** A path that does not start with two separators and whose second
    character is not a colon has no drive. *)
Lemma splitdrive_none (p : string) :
  has_drive p = false -> Posix.splitdrive p = (EmptyString, p).
Proof.
  destruct p as [|a [|b p]]; try reflexivity.
  unfold has_drive. intros Hd. apply orb_false_iff in Hd.
  destruct Hd as [Hunc Hcolon].
  unfold Posix.splitdrive.
  change (Str.chars (String a (String b p))) with (a :: b :: Str.chars p).
  cbn [List.length Nat.leb map firstn skipn Str.of_chars
       string_of_list_ascii String.eqb].
  rewrite !normsep_sep, normsep_colon, Hcolon.
  destruct (Posix.is_ntsep a); [|reflexivity].
  simpl in Hunc. rewrite Hunc. reflexivity.
Qed.

Lemma timestamp_not_absolute t e :
  Str.startswith (strftime t ++ e) "/" = false.
Proof.
  unfold strftime, Str.startswith.
  destruct (ord2ymd (ordinal_of t)) as [[y m] dd].
  unfold digits4. cbn [append String.prefix].
  destruct (ascii_dec "/" (digit (y / 1000))) as [E|]; [|reflexivity].
  symmetry in E. apply digit_not_slash in E. destruct E.
Qed.

Lemma prefix_empty s : String.prefix "" s = true.
Proof. destruct s; reflexivity. Qed.

Lemma posix_split_name (dir name : string) (sep : ascii) :
  Str.nonempty dir = true ->
  Str.endswith dir "/" = false -> Str.endswith dir "\" = false ->
  has_drive (dir ++ String sep name) = false ->
  Posix.is_ntsep sep = true ->
  no_char Posix.is_ntsep name = true ->
  Posix.ntpath_split (dir ++ String sep name) = (dir, name).
Proof.
  intros Hne Hs1 Hs2 Hdrive Hsep Hname.
  unfold Posix.ntpath_split. rewrite (splitdrive_none _ Hdrive).
  rewrite chars_append. change (Str.chars (String sep name))
    with (sep :: Str.chars name).
  rewrite rev_app_distr. cbn [rev]. rewrite <- app_assoc. cbn [app].
  unfold no_char in Hname.
  destruct (takewhile_stop (fun c => negb (Posix.is_ntsep c))
              (rev (Str.chars name)) sep (rev (Str.chars dir))) as [-> ->].
  { rewrite forallb_rev. exact Hname. }
  { rewrite Hsep. reflexivity. }
  rewrite rev_involutive, of_chars_chars. cbn [Str.dropwhile].
  rewrite Hsep.
  assert (Hlast : Str.dropwhile Posix.is_ntsep (rev (Str.chars dir))
                  = rev (Str.chars dir)).
  { unfold Str.endswith in Hs1, Hs2.
    destruct (rev (Str.chars dir)) as [|c l]; [reflexivity|].
    cbn -[ascii_dec String.prefix] in Hs1, Hs2.
    cbn [String.prefix] in Hs1, Hs2. rewrite prefix_empty in Hs1, Hs2.
    cbn [Str.dropwhile]. unfold Posix.is_ntsep. revert Hs1 Hs2.
    destruct (ascii_dec "/" c) as [<-|H1]; [discriminate|].
    destruct (ascii_dec "\" c) as [<-|H2]; [discriminate|].
    intros _ _. apply not_eq_sym in H1, H2.
    apply Ascii.eqb_neq in H1, H2. rewrite H1, H2. reflexivity. }
  rewrite Hlast, rev_involutive.
  destruct (Str.chars dir) as [|c l] eqn:E.
  - destruct dir; [discriminate Hne | discriminate E].
  - rewrite <- E, of_chars_chars. reflexivity.
Qed.

Lemma existsb_none {A} (f : A -> bool) l :
  forallb (fun c => negb (f c)) l = true -> existsb f l = false.
Proof.
  induction l as [|c l IH]; simpl; [reflexivity|].
  intros H. apply andb_true_iff in H. destruct H as [Hc Hl].
  apply negb_true_iff in Hc. rewrite Hc. auto.
Qed.

Lemma posix_splitext_name (stem ext : string) :
  no_char Posix.is_sep stem = true ->
  all_chars Posix.is_dot stem = false ->
  no_char Posix.is_dot ext = true ->
  no_char Posix.is_sep ext = true ->
  Posix.posixpath_splitext (stem ++ String "." ext)
  = (stem, String "." ext).
Proof.
  unfold no_char, all_chars. intros Hs1 Hs2 He1 He2.
  unfold Posix.posixpath_splitext.
  rewrite chars_append. change (Str.chars (String "." ext))
    with ("."%char :: Str.chars ext).
  rewrite rev_app_distr. cbn [rev]. rewrite <- app_assoc. cbn [app].
  destruct (takewhile_stop (fun c => negb (Posix.is_dot c))
              (rev (Str.chars ext)) "."%char (rev (Str.chars stem)))
    as [-> ->].
  { rewrite forallb_rev. exact He1. }
  { reflexivity. }
  rewrite existsb_none by (rewrite forallb_rev; exact He2).
  rewrite takewhile_all by (rewrite forallb_rev; exact Hs1).
  assert (Hd : forallb Posix.is_dot (rev (Str.chars stem)) = false)
    by (rewrite forallb_rev; exact Hs2).
  rewrite Hd, !rev_involutive, of_chars_chars.
  f_equal. unfold Str.of_chars. simpl.
  f_equal. apply string_of_list_ascii_of_string.
Qed.

(** On a POSIX host, a file [dir/stem.ext] whose path has no drive for
    [ntpath] (it does not start with two separators, and its second
    character is not a colon) is renamed to [dir/TIMESTAMP.ext]: it stays
    in its directory and keeps its extension as it is written.  The
    character before the name may be either separator of [ntpath]: a
    backslash in a file name is taken for one, and the target then lies in
    a directory named after what precedes it.  The instant is of the year
    1000 or later, where every host writes the year in four digits. *)
Theorem posix_renamed_file_name (dir stem ext : string) (sep : ascii)
  (t : datetime) :
  Str.nonempty dir = true ->
  Str.endswith dir "/" = false -> Str.endswith dir "\" = false ->
  has_drive (dir ++ String sep (stem ++ String "." ext)) = false ->
  make 1000 1 1 0 0 0 0 <= t <= datetime_max ->
  Posix.is_ntsep sep = true ->
  no_char Posix.is_ntsep stem = true ->
  all_chars Posix.is_dot stem = false ->
  no_char Posix.is_ntsep ext = true ->
  no_char Posix.is_dot ext = true ->
  renamed_file_name (H := Posix.host)
    (dir ++ String sep (stem ++ String "." ext)) t
  = (dir ++ "/" ++ strftime t ++ String "." ext)%string.
Proof.
  intros Hne Hs1 Hs2 Hdrive _ Hsep Hstem Hdots Hext Hedots.
  assert (Hsub : forall s, no_char Posix.is_ntsep s = true ->
                           no_char Posix.is_sep s = true).
  { unfold no_char. intros s. rewrite !forallb_forall. intros Hs c Hc.
    specialize (Hs c Hc). unfold Posix.is_ntsep, Posix.is_sep in *.
    destruct (Ascii.eqb c "/"); [discriminate | reflexivity]. }
  unfold renamed_file_name. cbn [split splitext join Posix.host].
  rewrite posix_split_name; auto.
  - assert (Hn : Str.nonempty (stem ++ String "." ext) = true)
      by (destruct stem; [discriminate Hdots | reflexivity]).
    rewrite Hn, posix_splitext_name; auto. cbn [snd].
    unfold Posix.posixpath_join.
    rewrite timestamp_not_absolute, Hne, Hs1. reflexivity.
  - unfold no_char in *. rewrite chars_append, forallb_app, Hstem.
    change (Str.chars (String "." ext)) with ("."%char :: Str.chars ext).
    cbn [forallb]. rewrite Hext. reflexivity.
Qed.

Lemma posix_renamed_file_name_witness :
  renamed_file_name (H := Posix.host)
    ("/home/me/photos" ++ String "/" ("IMG_0001" ++ String "." "JPG"))
    (make 2020 1 1 10 0 0 0)
  = ("/home/me/photos" ++ "/" ++ strftime (make 2020 1 1 10 0 0 0)
     ++ String "." "JPG")%string.
Proof.
  apply posix_renamed_file_name; try (vm_compute; reflexivity).
  split; vm_compute; discriminate.
Defined.
